(** * Student portal ([main2.py]): validators, record store, bulk transfer, login flow

    A shallow embedding of the portal's core.  The SQLite connection is an
    explicit state threaded through a small state-and-exception monad, Python
    dictionaries and sets are finite maps and sets, and the regular
    expressions of the validators are read by a small matcher.  The
    registration form, the program's start, the session with its pages and
    the table of the PDF report follow; the report's image boxes compute in
    binary64, the primitive floats. *)

From Stdlib Require Import ZArith Lia Floats Uint63.
From stdpp Require Import gmap strings list sorting pretty.

Local Open Scope list_scope.
Local Open Scope nat_scope.

(** * Part I: definitions *)

(** ** Characters

    The validators look at single characters and at lengths, so they take a
    Python [str] as its sequence of Unicode code points. *)

Definition codepoints (s : string) : list N :=
  Ascii.N_of_ascii <$> String.list_ascii_of_string s.

Definition in_range (lo hi c : N) : bool := (lo <=? c)%N && (c <=? hi)%N.

(** [[a-z]], [[A-Z]] and [[@#$%^&+=!]]. *)
Definition lowercase (c : N) : bool := in_range 97 122 c.
Definition uppercase (c : N) : bool := in_range 65 90 c.
Definition symbols : list N := codepoints "@#$%^&+=!".
Definition symbol (c : N) : bool := bool_decide (c ∈ symbols).

(** [.] without [re.DOTALL]: every character but the line feed. *)
Definition dot (c : N) : bool := negb (c =? 10)%N.

(** The digits [0] to [9], the ASCII part of both Unicode digit tables. *)
Definition ascii_digit (c : N) : bool := in_range 48 57 c.

(** ** The regular expressions of the validators

    Only the constructs the source's patterns use: a character class, a class
    repeated ([c*], [c{n,}]), a lookahead and concatenation. *)

Inductive regex : Type :=
| Class (p : N → bool)
| Star (p : N → bool)
| AtLeast (n : nat) (p : N → bool)
| Lookahead (r : regex)
| Cat (r1 r2 : regex).

(** Every way [c*] can stop: the longest run first, as the greedy star tries
    them. *)
Fixpoint star_rests (p : N → bool) (s : list N) : list (list N) :=
  match s with
  | c :: t => (if p c then star_rests p t else []) ++ [s]
  | [] => [[]]
  end.

Fixpoint at_least_rests (n : nat) (p : N → bool) (s : list N) : list (list N) :=
  match n with
  | O => star_rests p s
  | S n' =>
      match s with
      | c :: t => if p c then at_least_rests n' p t else []
      | [] => []
      end
  end.

(** [rests r s]: what is left of [s] after each match of [r] at its start, in
    the order a backtracking matcher finds them. *)
Fixpoint rests (r : regex) (s : list N) : list (list N) :=
  match r with
  | Class p =>
      match s with
      | c :: t => if p c then [t] else []
      | [] => []
      end
  | Star p => star_rests p s
  | AtLeast n p => at_least_rests n p s
  | Lookahead r' => match rests r' s with [] => [] | _ :: _ => [s] end
  | Cat r1 r2 => rests r1 s ≫= rests r2
  end.

(** [bool(re.fullmatch(r, s))]: some match consumes all of [s]. *)
Definition fullmatch (r : regex) (s : list N) : bool :=
  existsb (λ rest, bool_decide (rest = [])) (rests r s).

(** ** Validators *)

Section Validators.

(** The Unicode tables behind [\d] (category Nd) and [str.isdigit] belong to
    the Python runtime; they are parameters here. *)
Variable unicode_decimal : N → bool.
Variable unicode_digit : N → bool.

(** [str.isdigit()]: at least one character, and all of them digits. *)
Definition isdigit (s : list N) : bool :=
  negb (bool_decide (s = [])) && forallb unicode_digit s.

(** A Python object used as a condition: [None] and [0] are false. *)
Definition truthy (length : option Z) : bool :=
  match length with
  | None => false
  | Some n => negb (n =? 0)%Z
  end.

(** [bool(num) and num.isdigit() and (len(num) == length if length else True)] *)
Definition is_valid_number (num : list N) (length : option Z) : bool :=
  negb (bool_decide (num = [])) && isdigit num &&
  (if truthy length
   then bool_decide (Some (Z.of_nat (List.length num)) = length)
   else true).

(** [(?=.*[a-z])(?=.*[A-Z])(?=.*\d)(?=.*[@#$%^&+=!]).{8,}] *)
Definition ahead (p : N → bool) : regex := Lookahead (Cat (Star dot) (Class p)).

Definition strong_password_re : regex :=
  Cat (ahead lowercase)
    (Cat (ahead uppercase)
       (Cat (ahead unicode_decimal)
          (Cat (ahead symbol) (AtLeast 8 dot)))).

Definition is_strong_password (pwd : list N) : bool :=
  fullmatch strong_password_re pwd.

(** The reading of the password rule by character classes and length alone. *)
Definition strong_by_classes (pwd : list N) : bool :=
  existsb lowercase pwd && existsb uppercase pwd &&
  existsb unicode_decimal pwd && existsb symbol pwd &&
  bool_decide (8 ≤ List.length pwd)%nat.

End Validators.

(** ** Values, exceptions and the store

    Text the store holds is kept as a Rocq string (its UTF-8 bytes): the store
    only compares, concatenates and copies it. *)

(** What the program binds to a statement and reads back from a row:
    [None], an [int] (the year of the registration form) or a [str]. *)
Inductive value : Type :=
| VNull
| VInt (z : Z)
| VText (s : string).

Global Instance value_eq_dec : EqDecision value.
Proof. solve_decision. Defined.

Inductive exn : Type :=
| IntegrityError (msg : string)
| OperationalError (msg : string)
| ProgrammingError (msg : string)
| TypeError (msg : string)
| IndexError (msg : string).

(** [str(e)], as [f"{e}"] prints an exception. *)
Definition exn_message (e : exn) : string :=
  match e with
  | IntegrityError msg | OperationalError msg | ProgrammingError msg
  | TypeError msg | IndexError msg => msg
  end.

(** The table [students]: its column names in order, the column that carries
    the primary key, and its rows in rowid order, each aligned with the
    columns.  Every column has TEXT affinity, as all declarations of
    [DESIRED_SCHEMA] have. *)
Record table : Type := Table {
  columns : list string;
  primary_key : option string;
  rows : list (list value)
}.

(** The database behind the connection: the table, when it exists. *)
Definition database : Type := option table.

(** The invariant SQLite keeps: distinct column names, rows as wide as the
    table. *)
Definition wf_table (t : table) : Prop :=
  NoDup (columns t) ∧ Forall (λ r, List.length r = List.length (columns t)) (rows t).

(** [dict(pairs)]: a later pair overwrites an earlier one with the same key. *)
Definition dict {V} (pairs : list (string * V)) : gmap string V :=
  list_to_map (reverse pairs).

Definition index_of (c : string) (cols : list string) : option nat :=
  fst <$> list_find (λ x, x = c) cols.

(** The value a row holds in the column named [c]. *)
Definition field (cols : list string) (r : list value) (c : string) : option value :=
  index_of c cols ≫= λ i, r !! i.

(** A value stored in a TEXT column: an integer becomes its decimal text. *)
Definition text_affinity (v : value) : value :=
  match v with
  | VInt z => VText (pretty z)
  | _ => v
  end.

(** ** Statements: a state-and-exception monad over the database *)

Inductive outcome (A : Type) : Type :=
| Return (a : A)
| Raise (e : exn).
Arguments Return {A} a.
Arguments Raise {A} e.

Definition sql (A : Type) : Type := database → database * outcome A.

Global Instance sql_ret : MRet sql := λ A a db, (db, Return a).

Global Instance sql_bind : MBind sql := λ A B f m db,
  match m db with
  | (db', Return a) => f a db'
  | (db', Raise e) => (db', Raise e)
  end.

Definition raise {A} (e : exn) : sql A := λ db, (db, Raise e).

(** [try: m  except Exception as e: handler e] *)
Definition try_except {A} (m : sql A) (handler : exn → sql A) : sql A := λ db,
  match m db with
  | (db', Raise e) => handler e db'
  | returned => returned
  end.

(** [for x in l: body x] *)
Fixpoint for_each {A} (l : list A) (body : A → sql unit) : sql unit :=
  match l with
  | [] => mret ()
  | x :: rest => body x ≫= λ _, for_each rest body
  end.

Definition no_such_table {A} : sql A :=
  raise (OperationalError "no such table: students").

Definition with_table {A} (k : table → sql A) : sql A := λ db,
  match db with
  | Some t => k t db
  | None => no_such_table db
  end.

(** A declaration that carries the key: [... PRIMARY KEY]. *)
Definition declares_primary_key (dtype : string) : bool :=
  bool_decide (is_Some (String.index 0 "PRIMARY KEY" dtype)).

(** [SELECT name FROM sqlite_master WHERE type='table' AND name='students']
    followed by [fetchone()]: is there a row? *)
Definition table_exists : sql bool := λ db,
  (db, Return (bool_decide (is_Some db))).

(** [CREATE TABLE students (cols_def)] *)
Definition create_table (cols : list (string * string)) : sql unit := λ db,
  match db with
  | Some _ => (db, Raise (OperationalError "table students already exists"))
  | None =>
      (Some (Table cols.*1
               (fst <$> head (filter (λ cd, declares_primary_key cd.2 = true) cols))
               []),
       Return ())
  end.

(** [PRAGMA table_info(students)], read as [row[1]] of each row: the column
    names (no row at all when the table is missing). *)
Definition table_info : sql (list string) := λ db,
  (db, Return (from_option columns [] db)).

(** [ALTER TABLE students ADD COLUMN col dtype]: the column is appended and
    reads as NULL in the rows already there.  SQLite refuses a column that is
    already there and a PRIMARY KEY column. *)
Definition alter_add_column (col dtype : string) : sql unit :=
  with_table (λ t,
    if bool_decide (col ∈ columns t) then
      raise (OperationalError ("duplicate column name: " +:+ col))
    else if declares_primary_key dtype then
      raise (OperationalError "Cannot add a PRIMARY KEY column")
    else λ _,
      (Some (Table (columns t ++ [col]) (primary_key t) ((λ r, r ++ [VNull]) <$> rows t)),
       Return ())).

(** The row an [INSERT] naming [names] with parameters [vals] builds: the
    bound value under the column's affinity, NULL for a column not named. *)
Definition new_row (cols names : list string) (vals : list value) : list value :=
  (λ c, default VNull (text_affinity <$> dict (zip names vals) !! c)) <$> cols.

(** The key of [r] is a value (NULL never collides) some row already has. *)
Definition key_taken (t : table) (r : list value) : option string :=
  pk ← primary_key t;
  v ← field (columns t) r pk;
  if bool_decide (v ≠ VNull ∧ Exists (λ r', field (columns t) r' pk = Some v) (rows t))
  then Some pk else None.

(** [INSERT INTO students (names) VALUES (?, ..., ?)] with [vals] bound. *)
Definition insert_into (names : list string) (vals : list value) : sql unit :=
  with_table (λ t,
    match list_find (λ c, c ∉ columns t) names with
    | Some (_, c) =>
        raise (OperationalError ("table students has no column named " +:+ c))
    | None =>
        if bool_decide (List.length vals ≠ List.length names) then
          raise (ProgrammingError
                   ("Incorrect number of bindings supplied. The current statement uses "
                    +:+ pretty (List.length names) +:+ ", and there are "
                    +:+ pretty (List.length vals) +:+ " supplied."))
        else
          let r := new_row (columns t) names vals in
          match key_taken t r with
          | Some pk =>
              raise (IntegrityError ("UNIQUE constraint failed: students." +:+ pk))
          | None => λ _,
              (Some (Table (columns t) (primary_key t) (rows t ++ [r])), Return ())
          end
    end).

Definition no_such_column {A} (c : string) : sql A :=
  raise (OperationalError ("no such column: " +:+ c)).

(** The statements below name the columns [uname] and [pwd]. *)
Definition with_columns {A} (cs : list string) (k : table → sql A) : sql A :=
  with_table (λ t,
    match list_find (λ c, c ∉ columns t) cs with
    | Some (_, c) => no_such_column c
    | None => k t
    end).

Definition has_credentials (cols : list string) (uname pwd : string) (r : list value) : Prop :=
  field cols r "uname" = Some (VText uname) ∧ field cols r "pwd" = Some (VText pwd).

Global Instance has_credentials_dec cols uname pwd r :
  Decision (has_credentials cols uname pwd r).
Proof. unfold has_credentials. apply _. Defined.

(** [SELECT * FROM students WHERE uname=? AND pwd=?] with [(uname, pwd)],
    followed by [fetchone()]. *)
Definition select_by_credentials (uname pwd : string) : sql (option (list value)) :=
  with_columns ["uname"; "pwd"] (λ t,
    mret (snd <$> list_find (has_credentials (columns t) uname pwd) (rows t))).


Definition has_uname (cols : list string) (uname : string) (r : list value) : Prop :=
  field cols r "uname" = Some (VText uname).

Global Instance has_uname_dec cols uname r : Decision (has_uname cols uname r).
Proof. unfold has_uname. apply _. Defined.

(** [DELETE FROM students WHERE uname=?] *)
Definition delete_by_uname (uname : string) : sql unit :=
  with_columns ["uname"] (λ t _,
    (Some (Table (columns t) (primary_key t)
             (filter (λ r, ¬ has_uname (columns t) uname r) (rows t))),
     Return ())).

(** [UPDATE students SET pwd=? WHERE uname=?] with [(new_pwd, uname)]. *)
Definition update_pwd (new_pwd uname : string) : sql unit :=
  with_columns ["pwd"; "uname"] (λ t _,
    (Some (Table (columns t) (primary_key t)
             ((λ r, if decide (has_uname (columns t) uname r)
                    then from_option (λ i, <[i := VText new_pwd]> r) r
                           (index_of "pwd" (columns t))
                    else r) <$> rows t)),
     Return ())).

(** [conn.commit()]: the one connection already sees its own writes. *)
Definition commit : sql unit := mret ().

(** ** The schema and its reconciler *)

Definition DESIRED_SCHEMA : list (string * string) :=
  [("uname", "TEXT PRIMARY KEY"); ("pwd", "TEXT"); ("name", "TEXT");
   ("father", "TEXT"); ("mother", "TEXT"); ("gender", "TEXT");
   ("address", "TEXT"); ("city", "TEXT"); ("state", "TEXT"); ("phone", "TEXT");
   ("rrn", "TEXT"); ("enroll", "TEXT"); ("degree", "TEXT"); ("branch", "TEXT");
   ("sem", "TEXT"); ("scheme", "TEXT"); ("marks_10th", "TEXT");
   ("marks_12th", "TEXT"); ("photo_path", "TEXT"); ("sign_path", "TEXT")].

(** [DESIRED_SCHEMA.keys()] *)
Definition keys : list string := DESIRED_SCHEMA.*1.

(** The loop of [ensure_table_and_columns] over a schema, with the set of
    columns read before it. *)
Definition add_missing (existing : gset string) (schema : list (string * string)) : sql unit :=
  for_each schema (λ '(col, dtype),
    if bool_decide (col ∉ existing) then alter_add_column col dtype else mret ()).

Definition reconcile (schema : list (string * string)) : sql unit :=
  found ← table_exists;
  if negb found then
    create_table schema ≫= λ _, commit
  else
    info ← table_info;
    add_missing (list_to_set info) schema ≫= λ _, commit.

Definition ensure_table_and_columns : sql unit := reconcile DESIRED_SCHEMA.

(** ** Registration and login queries *)

Inductive notice : Type :=
| st_success (msg : string)
| st_error (msg : string).

(** The insert of the registration form (the [else] branch, the files
    saved): [values] are the twenty fields in schema order. *)
Definition register (values : list value) : sql notice :=
  try_except
    (insert_into keys values ≫= λ _, commit ≫= λ _,
     mret (st_success "✅ Registered successfully. Please log in."))
    (λ e, match e with
          | IntegrityError _ =>
              mret (st_error "Username already exists. Choose a different username.")
          | _ => mret (st_error ("Error saving data: " +:+ exn_message e))
          end).

(** The query of the login form. *)
Definition find_by_credentials (uname pwd : string) : sql (option (list value)) :=
  select_by_credentials uname pwd.

(** ** Administrative actions (the last tab of the dashboard) *)

(** The [Delete User] button with the text input [del_user]. *)
Definition delete_user (del_user : string) : sql notice :=
  if bool_decide (del_user ≠ "") then
    if bool_decide (del_user = "admin") then
      mret (st_error "Cannot delete the admin user.")
    else
      delete_by_uname del_user ≫= λ _, commit ≫= λ _,
      mret (st_success ("Deleted user: " +:+ del_user))
  else mret (st_error "Enter a username to delete.").

(** The [Reset Password] button with the inputs [rst_user] and [new_pwd]. *)
Definition reset_password (rst_user new_pwd : string) : sql notice :=
  if bool_decide (rst_user ≠ "") && bool_decide (new_pwd ≠ "") then
    if bool_decide (rst_user = "admin") then
      mret (st_error "Reset admin password directly in DB or change after login.")
    else
      update_pwd new_pwd rst_user ≫= λ _, commit ≫= λ _,
      mret (st_success ("Password reset for " +:+ rst_user))
  else mret (st_error "Provide username and new password.").

(** ** Bulk transfer

    [csv.writer] and [csv.reader] are taken by the rows of cells they exchange;
    the comma-separated text between them is the [csv] module's own. *)

Definition sheet : Type := list (list string).



(** [csv.DictReader]: the first row gives the field names. *)
Definition fieldnames (file : sheet) : option (list string) := head file.

(** One row of a [DictReader]: the cells under their field names, [None]
    under the names a short row leaves without a cell.  (The cells beyond the
    last name go under the key [None], which no lookup by name reads.) *)
Definition dict_row (names row : list string) : gmap string (option string) :=
  foldl (λ d key, <[key := None]> d)
        (dict (zip names (Some <$> row)))
        (drop (List.length row) names).

(** The rows a [DictReader] yields: blank rows are skipped. *)
Definition dict_rows (file : sheet) : list (gmap string (option string)) :=
  match file with
  | [] => []
  | names :: body => dict_row names <$> filter (λ row, row ≠ []) body
  end.

(** The order of [str]: by code points, which the bytes of UTF-8 keep. *)
Definition str_le (a b : string) : Prop := Is_true (String.leb a b).

Global Instance str_le_dec a b : Decision (str_le a b).
Proof. unfold str_le. apply _. Defined.

(** [sorted(xs)] on strings. *)
Definition sorted (xs : list string) : list string := merge_sort str_le xs.

(** [[row.get(k, '') for k in DESIRED_SCHEMA.keys()]] as statement parameters. *)
Definition row_values (row : gmap string (option string)) : list value :=
  (λ k, from_option VText VNull (default (Some "") (row !! k))) <$> keys.

Definition row_error (i : nat) (e : exn) : string :=
  "Row " +:+ pretty i +:+ ": " +:+ exn_message e.

(** The loop [for i, row in enumerate(reader, start=i)]. *)
Fixpoint import_rows (i : nat) (reader : list (gmap string (option string)))
    (imported : nat) (errors : list string) : sql (nat * list string) :=
  match reader with
  | [] => mret (imported, errors)
  | row :: rest =>
      step ← try_except
        (insert_into keys (row_values row) ≫= λ _, mret (S imported, errors))
        (λ e, mret (imported, errors ++ [row_error i e]));
      import_rows (S i) rest step.1 step.2
  end.

Definition missing_columns_error : string :=
  "CSV missing required columns. Required columns: " +:+
  String.concat "," (sorted (elements (list_to_set keys : gset string))).

Definition import_users_from_csv (file : sheet) : sql (nat * list string) :=
  match fieldnames file with
  | None => raise (TypeError "'NoneType' object is not iterable")
  | Some names =>
      let required_cols : gset string := list_to_set keys in
      if bool_decide (required_cols ⊆ list_to_set names) then
        result ← import_rows 2 (dict_rows file) 0 [];
        commit ≫= λ _, mret result
      else mret (0, [missing_columns_error])
  end.

(** ** The login form *)

Record session_state : Type := Session {
  logged_in : bool;
  user_data : option (list value);
  login_failed_count : Z;
  captcha : Z * Z * Z
}.

(** The session together with the number of draws taken from the random
    generator so far. *)
Record client : Type := Client {
  session : session_state;
  drawn : nat
}.

(** [str(v)] inside an f-string. *)
Definition py_str (v : value) : string :=
  match v with
  | VNull => "None"
  | VInt z => pretty z
  | VText s => s
  end.

Section Login.

(** The random generator: what its [n]-th draw yields. *)
Variable entropy : nat → Z.

(** [random.randint(lo, hi)] as the draw at position [pos]. *)
Definition randint (lo hi : Z) (pos : nat) : Z :=
  (lo + entropy pos `mod` (hi - lo + 1))%Z.

(** [a = random.randint(2, 12); b = random.randint(2, 12); (a, b, a + b)]
    with the generator at position [pos]. *)
Definition challenge_at (pos : nat) : Z * Z * Z :=
  let a := randint 2 12 pos in
  let b := randint 2 12 (S pos) in
  (a, b, (a + b)%Z).

(** [st.session_state.captcha = (a, b, a + b)] with two new draws. *)
Definition regenerate_captcha (w : client) : client :=
  let s := session w in
  Client (Session (logged_in s) (user_data s) (login_failed_count s)
            (challenge_at (drawn w)))
         (S (S (drawn w))).

(** [st.session_state.login_failed_count += 1] *)
Definition count_failure (w : client) : client :=
  let s := session w in
  Client (Session (logged_in s) (user_data s) (login_failed_count s + 1)%Z (captcha s))
         (drawn w).

(** [logged_in = True; user_data = user; login_failed_count = 0] *)
Definition log_in (user : list value) (w : client) : client :=
  Client (Session true (Some user) 0%Z (captcha (session w))) (drawn w).

(** The submitted login form.  [answer] is [int(user_ans)], [None] when the
    conversion raises. *)
Definition submit_login (uname pwd : string) (answer : option Z)
    (w : client) (db : database) : client * outcome notice :=
  let captcha_ok := bool_decide (answer = Some (captcha (session w)).2) in
  if negb captcha_ok then
    (regenerate_captcha (count_failure w),
     Return (st_error "Captcha incorrect. Please try again."))
  else
    match (find_by_credentials uname pwd db).2 with
    | Raise e => (w, Raise e)
    | Return (Some (x :: user)) =>
        let w' := log_in (x :: user) w in
        match (x :: user) !! 2 with
        | Some name =>
            (regenerate_captcha w',
             Return (st_success ("✅ Welcome " +:+ py_str name +:+ "!")))
        | None => (w', Raise (IndexError "tuple index out of range"))
        end
    | Return _ =>
        (regenerate_captcha (count_failure w),
         Return (st_error "❌ Invalid credentials."))
    end.

(** The challenges shown after each of a run of submitted forms. *)
Fixpoint challenges (attempts : list (string * string * option Z))
    (w : client) (db : database) : list (Z * Z * Z) :=
  match attempts with
  | [] => []
  | (uname, pwd, answer) :: rest =>
      let w' := (submit_login uname pwd answer w db).1 in
      captcha (session w') :: challenges rest w' db
  end.

End Login.

(** ** Describing a bulk import

    The functions below state what an import does; the program does not run
    them. *)

(** The username a row holds, when it holds one. *)
Definition uname_of (cols : list string) (r : list value) : option string :=
  match field cols r "uname" with
  | Some (VText u) => Some u
  | _ => None
  end.

Definition unames (t : table) : gset string :=
  list_to_set (omap (uname_of (columns t)) (rows t)).

(** For each record in turn (its username first): is its username new, that
    is neither in [seen] nor used by a record before it?  A record without a
    username never collides. *)
Fixpoint first_uses (seen : gset string) (records : list (list value)) : list bool :=
  match records with
  | [] => []
  | record :: rest =>
      match head record with
      | Some (VText u) => bool_decide (u ∉ seen) :: first_uses ({[u]} ∪ seen) rest
      | _ => true :: first_uses seen rest
      end
  end.

(** The records marked [true]. *)
Fixpoint accepted (records : list (list value)) (ok : list bool) : list (list value) :=
  match records, ok with
  | record :: rest, b :: ok' => (if b then [record] else []) ++ accepted rest ok'
  | _, _ => []
  end.

Definition duplicate_key : exn :=
  IntegrityError "UNIQUE constraint failed: students.uname".

(** One error line for each record marked [false], numbered from [i]. *)
Fixpoint rejected (i : nat) (ok : list bool) : list string :=
  match ok with
  | [] => []
  | b :: ok' => (if b then [] else [row_error i duplicate_key]) ++ rejected (S i) ok'
  end.








(** ** Sample data *)

Definition bob : list string :=
  ["bob"; "Pw1@aaaa"; "Bob"; "Father"; "Mother"; "Male"; "12 Road"; "Jaipur";
   "Rajasthan"; "0123456789"; "0987654321"; "E42"; "MCA"; "CSE"; "I"; "2024";
   "85"; "85.50"; "uploads/bob_photo.png"; "uploads/bob_sign.png"].

Definition alice : list string :=
  ["alice"; "Zz9#zzzz"; "Alice"; "Father"; "Mother"; "Female"; "7 Lane";
   "Delhi"; "Delhi"; "1111111111"; "2222222222"; "E43"; "MBA"; "ECE"; "II";
   "2025"; "91"; "90.5"; "uploads/alice_photo.png"; "uploads/alice_sign.png"].

(** The table as [CREATE TABLE] leaves it. *)
Definition created : table := Table keys (Some "uname") [].

Definition one_user : table := Table keys (Some "uname") [VText <$> bob].

Definition two_users : table :=
  Table keys (Some "uname") [VText <$> bob; VText <$> alice].

(** A record with the empty username, as a sheet with an empty [uname] cell
    imports it. *)
Definition nameless : table := Table keys (Some "uname") [VText <$> ("" :: tail bob)].



(** A random generator and a session to start from. *)
Definition dice (n : nat) : Z := Z.of_nat (7 * n + 3).

Definition anonymous : client := Client (Session false None 0 (5, 8, 13)%Z) 0.

(** A sheet of five records, the third with the username of the first. *)
Definition five_rows : sheet :=
  [keys; bob; alice; "bob" :: tail alice; "carol" :: tail bob; "dave" :: tail alice].

(** ** The validators of names and marks

    [is_valid_marks] uses more of the pattern language than the two patterns
    above: the anchors, a bounded repetition and an optional group. *)

(** [[A-Za-z ]] *)
Definition name_char (c : N) : bool := uppercase c || lowercase c || (c =? 32)%N.

(** [\.] *)
Definition full_stop (c : N) : bool := (c =? 46)%N.

Inductive pattern : Type :=
| Plain (r : regex)
| Caret
| Dollar
| Between (lo hi : nat) (p : N → bool)
| Optional (q : pattern)
| Then (q1 q2 : pattern).

(** Every way [c{0,n}] can stop, the longest run first. *)
Fixpoint at_most_rests (n : nat) (p : N → bool) (s : list N) : list (list N) :=
  match n, s with
  | S n', c :: t => (if p c then at_most_rests n' p t else []) ++ [s]
  | _, _ => [s]
  end.

(** [c{lo,hi}] *)
Fixpoint between_rests (lo hi : nat) (p : N → bool) (s : list N) : list (list N) :=
  match lo with
  | O => at_most_rests hi p s
  | S lo' =>
      match s with
      | c :: t => if p c then between_rests lo' (pred hi) p t else []
      | [] => []
      end
  end.

(** What is left of [s] after each match of [q] at its start; [whole] is the
    length of the string the match began in.  [^] holds at its very start,
    [$] at its end and before a line feed that ends it. *)
Fixpoint pattern_rests (whole : nat) (q : pattern) (s : list N) : list (list N) :=
  match q with
  | Plain r => rests r s
  | Caret => if bool_decide (List.length s = whole) then [s] else []
  | Dollar => if bool_decide (s = [] ∨ s = [10%N]) then [s] else []
  | Between lo hi p => between_rests lo hi p s
  | Optional q' => pattern_rests whole q' s ++ [s]
  | Then q1 q2 => pattern_rests whole q1 s ≫= pattern_rests whole q2
  end.

Definition pattern_fullmatch (q : pattern) (s : list N) : bool :=
  existsb (λ rest, bool_decide (rest = [])) (pattern_rests (List.length s) q s).

Section TextValidators.

(** The characters [str.strip] and [str.split] take for white space
    ([str.isspace]), and the decimal digits of [\d]: tables of the runtime. *)
Variable unicode_space : N → bool.
Variable unicode_decimal : N → bool.

Fixpoint lstrip (s : list N) : list N :=
  match s with
  | c :: t => if unicode_space c then lstrip t else s
  | [] => []
  end.

Definition rstrip (s : list N) : list N := reverse (lstrip (reverse s)).

(** [s.strip()] *)
Definition strip (s : list N) : list N := rstrip (lstrip s).

(** [bool(name) and bool(re.fullmatch(r"[A-Za-z ]+", name.strip()))] *)
Definition is_valid_name (name : list N) : bool :=
  negb (bool_decide (name = [])) && fullmatch (AtLeast 1 name_char) (strip name).

(** [^\d+(\.\d{1,2})?$] *)
Definition marks_re : pattern :=
  Then Caret
    (Then (Plain (AtLeast 1 unicode_decimal))
       (Then (Optional (Then (Plain (Class full_stop)) (Between 1 2 unicode_decimal)))
          Dollar)).

(** [bool(re.fullmatch(marks_re, value.strip())) if value and value.strip() else False] *)
Definition is_valid_marks (value : list N) : bool :=
  if negb (bool_decide (value = [])) && negb (bool_decide (strip value = []))
  then pattern_fullmatch marks_re (strip value)
  else false.

End TextValidators.

(** White space among the ASCII characters: the space, [\t] to [\r], and the
    separators [\x1c] to [\x1f]. *)
Definition ascii_space (c : N) : bool :=
  (c =? 32)%N || in_range 9 13 c || in_range 28 31 c.

(** ** The program's start: the default administrator *)

(** [SELECT * FROM students WHERE uname='admin'] followed by [fetchone()]. *)
Definition select_by_uname (uname : string) : sql (option (list value)) :=
  with_columns ["uname"] (λ t,
    mret (snd <$> list_find (has_uname (columns t) uname) (rows t))).

Definition admin_pwd : string := "Admin@123".

Definition admin_values : list string :=
  ["admin"; admin_pwd; "Administrator"; ""; ""; "Other"; ""; ""; ""; ""; ""; "";
   "Admin"; "Admin"; "NA"; "NA"; ""; ""; ""; ""].

(** A fetched row used as a condition: [None] and the empty tuple are
    false. *)
Definition row_truthy (row : option (list value)) : bool :=
  match row with
  | Some (_ :: _) => true
  | _ => false
  end.

(** The block after the reconciler's call: the account [admin] is inserted
    when no row has that username, and whatever is raised is swallowed. *)
Definition create_default_admin : sql unit :=
  try_except
    (found ← select_by_uname "admin";
     if negb (row_truthy found)
     then insert_into keys (VText <$> admin_values) ≫= λ _, commit
     else mret ())
    (λ _, mret ()).

(** What the module runs on the database before any page is drawn. *)
Definition startup : sql unit :=
  ensure_table_and_columns ≫= λ _, create_default_admin.

(** The table after the first start on an empty database. *)
Definition first_start : table := Table keys (Some "uname") [VText <$> admin_values].

(** ** Describing runs of the program on the store

    What the pages can do to the store, in any order, and the invariant they
    keep. *)





(** ** Describing a store read back into itself *)


(** ** The session and the pages *)

Section Pages.

Variable entropy : nat → Z.

(** The session setup of the module: a session that has no state yet gets
    the four entries, the challenge from two draws; a later run of the script
    finds them and leaves them.  [pos] is where the generator stands. *)
Definition session_setup (pos : nat) (w : option client) : client :=
  match w with
  | Some w => w
  | None => Client (Session false None 0 (challenge_at entropy pos)) (S (S pos))
  end.

(** The choice [Logout] of the dashboard's sidebar. *)
Definition logout (w : client) : client :=
  let s := session w in
  Client (Session false None (login_failed_count s) (captcha s)) (drawn w).

(** [st.session_state.logged_in and st.session_state.user_data]: the page the
    script draws is the dashboard, else the login form. *)
Definition shows_dashboard (w : client) : bool :=
  logged_in (session w) && row_truthy (user_data (session w)).

(** What a visitor does on the page shown. *)
Inductive event : Type :=
| SubmitLogin (uname pwd : string) (answer : option Z)
| ChooseLogout.

(** One run of the script on an event: the login form takes a submitted
    login, the dashboard the choice of [Logout]. *)
Definition run_page (e : event) (db : database) (w : client) : client :=
  if shows_dashboard w then
    match e with
    | ChooseLogout => logout w
    | SubmitLogin _ _ _ => w
    end
  else
    match e with
    | SubmitLogin uname pwd answer => (submit_login entropy uname pwd answer w db).1
    | ChooseLogout => w
    end.

(** A visit: the events in order, each with the database it meets. *)
Definition visit (events : list (event * database)) (w : client) : client :=
  foldl (λ w ed, run_page ed.1 ed.2 w) w events.

End Pages.

(** [is_admin_user = (user[0] == 'admin')]; the dashboard is called with a
    tuple that is not empty. *)
Definition is_admin_user (user : list value) : bool :=
  bool_decide (head user = Some (VText "admin")).

Definition base_options : list string :=
  ["Home"; "About Me"; "College Detail"; "Photo & Signature"; "Download PDF"].

(** The entries of the sidebar. *)
Definition sidebar_options (user : list value) : list string :=
  base_options ++ (if is_admin_user user then ["Admin Dashboard"] else []) ++ ["Logout"].

(** [user_dict = dict(zip(col_names, user))] *)
Definition user_dict (col_names : list string) (user : list value) : gmap string value :=
  dict (zip col_names user).

(** The session is consistent: the answer kept is the sum of the two numbers
    shown, each between 2 and 12; the failure count is not negative; and a
    record is held exactly when the session is logged in. *)
Definition session_ok (w : client) : Prop :=
  let s := session w in
  ((2 ≤ (captcha s).1.1 ≤ 12)%Z ∧ (2 ≤ (captcha s).1.2 ≤ 12)%Z ∧
   (captcha s).2 = ((captcha s).1.1 + (captcha s).1.2)%Z) ∧
  (0 ≤ login_failed_count s)%Z ∧
  (if logged_in s then row_truthy (user_data s) = true else user_data s = None).

(** ** The registration form

    The form's text is validated as a [str] (code points) and handed to
    SQLite and to the file system as bytes; the uploads directory is a map
    from paths to file contents. *)

(** What the form holds when [Register] is pressed.  The year is the entry
    ["Select"] or one of the numbers offered; an upload is the bytes of the
    file, [None] when nothing was chosen. *)
Record registration : Type := Registration {
  form_uname : list N;
  form_pwd : list N;
  form_name : list N;
  form_father : list N;
  form_mother : list N;
  form_gender : list N;
  form_address : list N;
  form_city : list N;
  form_state : list N;
  form_phone : list N;
  form_rrn : list N;
  form_enroll : list N;
  form_degree : list N;
  form_branch : list N;
  form_sem : list N;
  form_scheme : list N + Z;
  form_marks_10th : list N;
  form_marks_12th : list N;
  form_photo : option string;
  form_sign : option string
}.

(** A [str] as a condition. *)
Definition filled (s : list N) : bool := negb (bool_decide (s = [])).

(** [(x and x != "Select")] for a select box of strings. *)
Definition chosen (s : list N) : bool :=
  filled s && negb (bool_decide (s = codepoints "Select")).

(** The same for the year, an [int] unless it is ["Select"]. *)
Definition year_chosen (scheme : list N + Z) : bool :=
  match scheme with
  | inl s => chosen s
  | inr y => negb (y =? 0)%Z
  end.

(** [not all([...])] *)
Definition missing_fields (f : registration) : bool :=
  negb (forallb id
    [filled (form_uname f); filled (form_pwd f); filled (form_name f);
     filled (form_father f); filled (form_mother f); filled (form_gender f);
     filled (form_address f); filled (form_city f); chosen (form_state f);
     filled (form_phone f); filled (form_rrn f); filled (form_enroll f);
     chosen (form_degree f); chosen (form_branch f); chosen (form_sem f);
     year_chosen (form_scheme f); filled (form_marks_10th f);
     filled (form_marks_12th f); bool_decide (is_Some (form_photo f));
     bool_decide (is_Some (form_sign f))]).

Definition files : Type := gmap string string.

(** What the visitor gets: a notice of the form, or the error page of an
    exception nothing catches. *)
Inductive reply : Type :=
| Says (n : notice)
| OpenFailed (path : string)
| Uncaught (e : exn).

Section Registration.

Variable unicode_decimal : N → bool.
Variable unicode_digit : N → bool.
Variable unicode_space : N → bool.

(** The bytes of a [str] (UTF-8), [os.path.join] of the platform, and
    whether the operating system lets the program create or replace the file
    at a path. *)
Variable encode : list N → string.
Variable path_join : string → string → string.
Variable writable : string → bool.

(** [save_file]: the path written, [None] without an upload; [inr] when
    [open] raises. *)
Definition save_file (uploaded_file : option string) (filename : string) (fs : files)
    : files * (option string + string) :=
  let path := path_join "uploads" filename in
  match uploaded_file with
  | None => (fs, inl None)
  | Some buffer =>
      if writable path then (<[path := buffer]> fs, inl (Some path))
      else (fs, inr path)
  end.

(** The tuple bound to the insert. *)
Definition form_values (f : registration) (photo_path sign_path : option string)
    : list value :=
  let text := λ s, VText (encode s) in
  let path := from_option VText VNull in
  [text (form_uname f); text (form_pwd f); text (form_name f); text (form_father f);
   text (form_mother f); text (form_gender f); text (form_address f);
   text (form_city f); text (form_state f); text (form_phone f); text (form_rrn f);
   text (form_enroll f); text (form_degree f); text (form_branch f);
   text (form_sem f);
   match form_scheme f with inl s => text s | inr y => VInt y end;
   text (form_marks_10th f); text (form_marks_12th f);
   path photo_path; path sign_path].

(** The checks between the form and the insert, in the order of the
    [if]/[elif] chain; [None] when all pass. *)
Definition validation_error (f : registration) : option string :=
  if missing_fields f then
    Some "All fields are required. Check highlighted fields."
  else if negb (forallb (is_valid_name unicode_space)
                  [form_name f; form_father f; form_mother f; form_city f]) then
    Some "Names and city must contain only letters and spaces."
  else if negb (is_valid_number unicode_digit (form_phone f) (Some 10%Z)) then
    Some "Phone must be exactly 10 digits."
  else if negb (is_strong_password unicode_decimal (form_pwd f)) then
    Some "Password must be strong (A-Z, a-z, 0-9, symbol, min 8 chars)."
  else if negb (is_valid_marks unicode_space unicode_decimal (form_marks_10th f))
          || negb (is_valid_marks unicode_space unicode_decimal (form_marks_12th f)) then
    Some "Marks must be numeric (decimals allowed), e.g. 85 or 85.50"
  else None.

Definition photo_name (f : registration) : string :=
  encode (form_uname f ++ codepoints "_photo.png").

Definition sign_name (f : registration) : string :=
  encode (form_uname f ++ codepoints "_sign.png").

(** [if submit:] of the registration form. *)
Definition submit_registration (f : registration) (fs : files) (db : database)
    : files * database * reply :=
  match validation_error f with
  | Some msg => (fs, db, Says (st_error msg))
  | None =>
      match save_file (form_photo f) (photo_name f) fs with
      | (fs1, inr path) => (fs1, db, OpenFailed path)
      | (fs1, inl photo_path) =>
          match save_file (form_sign f) (sign_name f) fs1 with
          | (fs2, inr path) => (fs2, db, OpenFailed path)
          | (fs2, inl sign_path) =>
              match register (form_values f photo_path sign_path) db with
              | (db', Return n) => (fs2, db', Says n)
              | (db', Raise e) => (fs2, db', Uncaught e)
              end
          end
      end
  end.

End Registration.

(** UTF-8, for the code points a form can send. *)
Definition utf8_char (c : N) : list N :=
  if (c <? 128)%N then [c]
  else if (c <? 2048)%N then [192 + c / 64; 128 + c mod 64]%N
  else if (c <? 65536)%N then
    [224 + c / 4096; 128 + (c / 64) mod 64; 128 + c mod 64]%N
  else
    [240 + c / 262144; 128 + (c / 4096) mod 64; 128 + (c / 64) mod 64;
     128 + c mod 64]%N.

Definition utf8 (s : list N) : string :=
  String.string_of_list_ascii (Ascii.ascii_of_N <$> (s ≫= utf8_char)).

(** [os.path.join] of two parts on POSIX. *)
Definition posix_join (a b : string) : string :=
  if String.prefix "/" b then b
  else if bool_decide (a = "")
          || bool_decide (String.substring (String.length a - 1) 1 a = "/")
  then a +:+ b
  else a +:+ "/" +:+ b.

(** A filled form. *)
Definition carol_form : registration :=
  Registration (codepoints "carol") (codepoints "Cc3&cccc") (codepoints "Carol Rao")
    (codepoints "Father") (codepoints "Mother") (codepoints "Female")
    (codepoints "9 Street") (codepoints "Jaipur") (codepoints "Rajasthan")
    (codepoints "0123456789") (codepoints "0987654321") (codepoints "E44")
    (codepoints "MCA") (codepoints "CSE") (codepoints "I") (inr 2024%Z)
    (codepoints "85") (codepoints "85.50") (Some "photo bytes") (Some "sign bytes").

(** ** The report: the lines of a value

    The table of the PDF report draws each value in lines of at most 55
    characters, broken between words. *)

Section Report.

Variable unicode_space : N → bool.

(** [value.split()]: the runs of characters that are not white space;
    [run] is the one being read. *)
Fixpoint split_from (s : list N) (run : list N) : list (list N) :=
  match s with
  | [] => if bool_decide (run = []) then [] else [run]
  | c :: t =>
      if unicode_space c then
        (if bool_decide (run = []) then [] else [run]) ++ split_from t []
      else split_from t (run ++ [c])
  end.

Definition split (s : list N) : list (list N) := split_from s [].

(** A word: not empty, no white space in it. *)
Definition word (w : list N) : Prop :=
  w ≠ [] ∧ forallb (λ c, negb (unicode_space c)) w = true.

Definition max_chars_per_line : nat := 55.

(** The body of [for w in words], on [(lines, current_line)]. *)
Definition wrap_step (st : list (list N) * list N) (w : list N)
    : list (list N) * list N :=
  if bool_decide (List.length st.2 + List.length w + 1 ≤ max_chars_per_line)
  then (st.1, strip unicode_space (st.2 ++ [32%N] ++ w))
  else (st.1 ++ [st.2], w).

(** The lines of [value]. *)
Definition wrap (value : list N) : list (list N) :=
  if bool_decide (value = []) then [[]]
  else
    let st := foldl wrap_step ([], []) (split value) in
    if bool_decide (st.2 = []) then st.1 else st.1 ++ [st.2].

End Report.

(** The table: its top edge, the height of a row and the number of rows
    (the sixteen labels). *)
Definition table_y_start : Z := 700 - 140 - 40.
Definition row_height : Z := 26.
Definition num_rows : Z := 16.

(** The loop [for li, vline in enumerate(lines)] of row [idx]: the height
    each line is drawn at and the text drawn. *)
Definition draw_lines (idx : nat) (lines : list (list N)) : list (Z * list N) :=
  imap (λ li vline,
    let y_top := (table_y_start - Z.of_nat idx * row_height)%Z in
    let line_y := (y_top - (Z.of_nat li + 1) * 12)%Z in
    let bottom_limit := (table_y_start - num_rows * row_height)%Z in
    ((line_y + 4)%Z,
     if (line_y <? bottom_limit + 6)%Z then take 40 vline ++ codepoints "..."
     else vline)) lines.

(** [" ".join(words)] *)
Fixpoint unwords (words : list (list N)) : list N :=
  match words with
  | [] => []
  | w :: rest =>
      match rest with
      | [] => w
      | _ :: _ => w ++ [32%N] ++ unwords rest
      end
  end.

(** ** The report: an image in its box

    Python's [float] is the binary64 format of the primitive floats.  The
    sizes and coordinates are [int]s below 2^53, which convert exactly. *)

(** [float(z)] *)
Definition float_of_int (z : Z) : float := PrimFloat.of_uint63 (Uint63.of_Z z).

(** [min(a, b, c)]: the first of the smallest, found with [<]. *)
Definition min3 (a b c : float) : float :=
  let m := if (b <? a)%float then b else a in
  if (c <? m)%float then c else m.

(** What the function puts on the canvas. *)
Inductive drawing : Type :=
| drawImage (x_pos y_pos width height : float)
| drawString (text_x : Z) (text_y : float) (alt_text : string).

(** [draw_image_in_box]: [image] is the size of the picture [Image.open]
    reads ([None] without a path, without a file, or when it raises);
    [drawable] is whether [c_pdf.drawImage] returns.  A size of 0 raises
    [ZeroDivisionError], which the function catches as anything else. *)
Definition draw_image_in_box (image : option (Z * Z)) (drawable : bool)
    (box_x box_y_top box_w box_h : Z) (alt_text : string) : drawing :=
  let alt :=
    drawString (box_x + 6)
      (float_of_int box_y_top - float_of_int box_h / float_of_int 2)%float alt_text in
  match image with
  | Some (im_w, im_h) =>
      if (im_w =? 0)%Z || (im_h =? 0)%Z then alt
      else
        let max_w := (box_w - 8)%Z in
        let max_h := (box_h - 8)%Z in
        let ratio :=
          min3 (float_of_int max_w / float_of_int im_w)%float
               (float_of_int max_h / float_of_int im_h)%float 1%float in
        let disp_w := (float_of_int im_w * ratio)%float in
        let disp_h := (float_of_int im_h * ratio)%float in
        let x_pos :=
          (float_of_int box_x + (float_of_int box_w - disp_w) / float_of_int 2)%float in
        let y_pos :=
          (float_of_int (box_y_top - box_h)
           + (float_of_int box_h - disp_h) / float_of_int 2)%float in
        if drawable then drawImage x_pos y_pos disp_w disp_h else alt
  | None => alt
  end.

(** The two boxes of the report: the photo at the left, the signature at its
    right. *)
Definition left_x : Z := 40.
Definition right_x : Z := left_x + 220 + 20.

(** * Part II: theorems *)

(** ** Validators *)

(** A decidable statement about given data, settled by evaluation. *)
Ltac evaluate := apply (bool_decide_unpack _); by vm_compute.

Lemma star_rests_elem p s rest :
  rest ∈ star_rests p s ↔ ∃ pre, s = pre ++ rest ∧ forallb p pre = true.
Proof.
  revert rest. induction s as [|c t IH]; intros rest; simpl.
  - rewrite list_elem_of_singleton. split.
    + intros ->. by exists [].
    + intros (pre & Hs & _). symmetry in Hs. by apply app_eq_nil in Hs as [_ ->].
  - rewrite elem_of_app, list_elem_of_singleton. split.
    + intros [Hin | ->]; [|by exists []].
      destruct (p c) eqn:Hc; [|by apply elem_of_nil in Hin].
      apply IH in Hin as (pre & -> & Hpre). exists (c :: pre). simpl.
      by rewrite Hc, Hpre.
    + intros ([|d pre] & Hs & Hpre); simpl in *; [by right; subst|].
      injection Hs as <- ->. apply andb_true_iff in Hpre as [Hc Hpre].
      left. rewrite Hc. apply IH. eauto.
Qed.

Lemma at_least_rests_nil n p s :
  [] ∈ at_least_rests n p s ↔ n ≤ List.length s ∧ forallb p s = true.
Proof.
  revert s. induction n as [|n IH]; intros s; simpl.
  - rewrite star_rests_elem. split.
    + intros (pre & -> & Hpre). rewrite app_nil_r. split; [lia|done].
    + intros [_ Hs]. exists s. by rewrite app_nil_r.
  - destruct s as [|c t]; simpl.
    + rewrite elem_of_nil. split; [done|]. intros [? _]; lia.
    + destruct (p c); simpl.
      * rewrite IH. split; intros [? ?]; split; auto with lia.
      * rewrite elem_of_nil. split; [done|]. by intros [_ ?].
Qed.

Lemma ahead_rests p s :
  forallb dot s = true →
  rests (ahead p) s = if existsb p s then [s] else [].
Proof.
  intros Hdot. simpl.
  destruct (existsb p s) eqn:Hex.
  - apply existsb_exists in Hex as (c & Hin & Hc).
    apply list_elem_of_In, list_elem_of_split in Hin as (pre & post & ->).
    assert (post ∈ star_rests dot (pre ++ c :: post) ≫=
                    (λ s, match s with c :: t => if p c then [t] else [] | [] => [] end))
      as Hin.
    { apply list_elem_of_bind. exists (c :: post). split.
      - rewrite Hc. by apply list_elem_of_singleton.
      - apply star_rests_elem. exists pre. split; [done|].
        rewrite forallb_app in Hdot. by apply andb_true_iff in Hdot as [? _]. }
    by destruct (star_rests dot (pre ++ c :: post) ≫= _); [apply elem_of_nil in Hin|].
  - destruct (star_rests dot s ≫= _) as [|x l] eqn:Hb; [done|]. exfalso.
    assert (x ∈ x :: l) as Hin by apply list_elem_of_here. rewrite <- Hb in Hin.
    apply list_elem_of_bind in Hin as ([|c t] & Hx & Hy); [by apply elem_of_nil in Hx|].
    destruct (p c) eqn:Hc; [|by apply elem_of_nil in Hx].
    apply star_rests_elem in Hy as (pre & -> & _).
    apply not_true_iff_false in Hex. apply Hex, existsb_exists. exists c.
    split; [|done]. apply in_or_app. right. by left.
Qed.

Lemma fullmatch_true r s : fullmatch r s = true ↔ [] ∈ rests r s.
Proof.
  unfold fullmatch. rewrite existsb_exists. split.
  - intros (rest & Hin & Hnil). apply bool_decide_eq_true in Hnil as ->.
    by apply list_elem_of_In.
  - intros Hin. exists []. split; [by apply list_elem_of_In|done].
Qed.

Lemma rests_lookahead_cat r1 r2 s :
  rests (Cat (Lookahead r1) r2) s =
  match rests r1 s with [] => [] | _ :: _ => rests r2 s end.
Proof. simpl. destruct (rests r1 s); simpl; [done|]. apply app_nil_r. Qed.

Lemma rests_ahead_cat p r s :
  forallb dot s = true →
  rests (Cat (ahead p) r) s = if existsb p s then rests r s else [].
Proof.
  intros Hdot. change (rests (Cat (ahead p) r) s) with (rests (ahead p) s ≫= rests r).
  rewrite (ahead_rests p s Hdot). destruct (existsb p s); simpl; [|done].
  apply app_nil_r.
Qed.

Lemma rests_ahead_cat_sub p r s rest :
  rest ∈ rests (Cat (ahead p) r) s → rest ∈ rests r s.
Proof.
  unfold ahead. rewrite rests_lookahead_cat.
  destruct (rests _ s); [by intros ?%elem_of_nil|done].
Qed.

Lemma existsb_has {A} (p : A → bool) (l : list A) :
  existsb p l = true ↔ ∃ c, c ∈ l ∧ p c = true.
Proof.
  rewrite existsb_exists. split; intros (c & Hin & Hc); exists c;
    (split; [by apply list_elem_of_In|done]).
Qed.

Lemma forallb_dot_no_line_feed s : forallb dot s = true ↔ 10%N ∉ s.
Proof.
  rewrite forallb_forall. unfold dot. split.
  - intros Hall Hin. apply list_elem_of_In, Hall in Hin. done.
  - intros Hnin c Hin. apply negb_true_iff, N.eqb_neq. intros ->.
    by apply Hnin, list_elem_of_In.
Qed.

Lemma is_strong_password_classes d pwd :
  is_strong_password d pwd = strong_by_classes d pwd && forallb dot pwd.
Proof.
  unfold is_strong_password, strong_by_classes.
  destruct (forallb dot pwd) eqn:Hdot.
  - rewrite andb_true_r. unfold fullmatch, strong_password_re.
    rewrite !rests_ahead_cat by done.
    destruct (existsb lowercase pwd), (existsb uppercase pwd), (existsb d pwd),
      (existsb symbol pwd); cbn [andb existsb]; try done.
    change (existsb _ (rests (AtLeast 8 dot) pwd))
      with (fullmatch (AtLeast 8 dot) pwd).
    apply eq_true_iff_eq. rewrite fullmatch_true, bool_decide_eq_true.
    cbn [rests]. rewrite at_least_rests_nil. tauto.
  - rewrite andb_false_r. apply not_true_iff_false. intros Hm.
    apply fullmatch_true in Hm. unfold strong_password_re in Hm.
    do 4 apply rests_ahead_cat_sub in Hm.
    apply (at_least_rests_nil 8 dot pwd) in Hm as [_ Hm]. congruence.
Qed.

(** C7 (as amended).  [is_strong_password] accepts exactly the strings that
    hold a lowercase letter, an uppercase letter, a decimal digit and one of
    the symbols [@#$%^&+=!], in any order, have at least 8 characters, and
    hold no line feed (which [.] does not match).  It accepts ["Abcd123@"]
    and rejects ["abcd1234"], ["ABCD123@"] and ["Abc1@"]. *)
Theorem is_strong_password_spec (unicode_decimal : N → bool) :
  (∀ c, ascii_digit c = true → unicode_decimal c = true) →
  (∀ pwd : list N,
     is_strong_password unicode_decimal pwd = true ↔
     (∃ c, c ∈ pwd ∧ lowercase c = true) ∧
     (∃ c, c ∈ pwd ∧ uppercase c = true) ∧
     (∃ c, c ∈ pwd ∧ unicode_decimal c = true) ∧
     (∃ c, c ∈ pwd ∧ symbol c = true) ∧
     8 ≤ List.length pwd ∧
     10%N ∉ pwd) ∧
  is_strong_password unicode_decimal (codepoints "Abcd123@") = true ∧
  is_strong_password unicode_decimal (codepoints "abcd1234") = false ∧
  is_strong_password unicode_decimal (codepoints "ABCD123@") = false ∧
  is_strong_password unicode_decimal (codepoints "Abc1@") = false.
Proof.
  intros Hascii.
  assert (∀ pwd : list N,
     is_strong_password unicode_decimal pwd = true ↔
     (∃ c, c ∈ pwd ∧ lowercase c = true) ∧
     (∃ c, c ∈ pwd ∧ uppercase c = true) ∧
     (∃ c, c ∈ pwd ∧ unicode_decimal c = true) ∧
     (∃ c, c ∈ pwd ∧ symbol c = true) ∧
     8 ≤ List.length pwd ∧
     10%N ∉ pwd) as Hspec.
  { intros pwd. rewrite is_strong_password_classes. unfold strong_by_classes.
    rewrite !andb_true_iff, bool_decide_eq_true, !existsb_has,
      forallb_dot_no_line_feed. tauto. }
  split; [exact Hspec|]. split; [|split; [|split]].
  - apply Hspec.
    repeat split; [exists 98%N|exists 65%N|exists 49%N|exists 64%N|..];
      [split; [evaluate|first [by apply Hascii|by vm_compute]]..| |evaluate].
    vm_compute. lia.
  - rewrite is_strong_password_classes. unfold strong_by_classes.
    replace (existsb uppercase (codepoints "abcd1234")) with false by (by vm_compute).
    by rewrite andb_false_r.
  - rewrite is_strong_password_classes. unfold strong_by_classes.
    by replace (existsb lowercase (codepoints "ABCD123@")) with false by (by vm_compute).
  - rewrite is_strong_password_classes. unfold strong_by_classes.
    replace (bool_decide (8 ≤ List.length (codepoints "Abc1@"))) with false
      by (by vm_compute).
    by rewrite andb_false_r.
Qed.

Lemma is_strong_password_spec_witness :
  is_strong_password ascii_digit (codepoints "Abcd123@") = true.
Proof.
  apply (is_strong_password_spec ascii_digit).
  intros c Hc. exact Hc.
Defined.

(** C7 (as stated) fails on a string with a line feed: all four classes occur
    and there are 9 characters, yet the pattern does not match. *)
Lemma is_strong_password_line_feed :
  let pwd := codepoints "Abcd123@" ++ [10%N] in
  ((∃ c, c ∈ pwd ∧ lowercase c = true) ∧
   (∃ c, c ∈ pwd ∧ uppercase c = true) ∧
   (∃ c, c ∈ pwd ∧ ascii_digit c = true) ∧
   (∃ c, c ∈ pwd ∧ symbol c = true) ∧
   8 ≤ List.length pwd) ∧
  is_strong_password ascii_digit pwd = false.
Proof.
  split; [|by vm_compute].
  repeat split; [exists 98%N|exists 65%N|exists 49%N|exists 64%N|vm_compute; lia];
    (split; [evaluate|by vm_compute]).
Qed.

(** C10.  With the length argument 0, [is_valid_number] accepts every
    non-empty string of digits, whatever its length: 0 is falsy, so the
    length test is skipped as it is when no length is given. *)
Theorem is_valid_number_zero_length (unicode_digit : N → bool) (num : list N) :
  num ≠ [] →
  forallb unicode_digit num = true →
  is_valid_number unicode_digit num (Some 0%Z) = true ∧
  is_valid_number unicode_digit num (Some 0%Z) =
    is_valid_number unicode_digit num None.
Proof.
  intros Hne Hdig. unfold is_valid_number, isdigit. simpl.
  rewrite Hdig, bool_decide_eq_false_2 by done. done.
Qed.

Lemma is_valid_number_zero_length_witness :
  is_valid_number ascii_digit (codepoints "9876543210") (Some 0%Z) = true.
Proof.
  apply (is_valid_number_zero_length ascii_digit (codepoints "9876543210")).
  - vm_compute. discriminate.
  - vm_compute. reflexivity.
Defined.

(** ** The store *)

Lemma index_of_Some c cols i : index_of c cols = Some i → cols !! i = Some c.
Proof.
  unfold index_of. destruct (list_find _ cols) as [[j x]|] eqn:Hf; [|done].
  simpl. intros [= ->]. by apply list_find_Some in Hf as (Hj & -> & _).
Qed.

Lemma index_of_elem c cols : c ∈ cols → is_Some (index_of c cols).
Proof.
  intros Hin. unfold index_of.
  destruct (list_find_elem_of (λ x, x = c) cols c Hin eq_refl) as [[i x] ->].
  by exists i.
Qed.

Lemma index_of_not_elem c cols : c ∉ cols → index_of c cols = None.
Proof.
  intros Hnin. destruct (index_of c cols) as [i|] eqn:Hi; [|done].
  apply index_of_Some, list_elem_of_lookup_2 in Hi. done.
Qed.


Lemma NoDup_fst_zip {V} (names : list string) (vals : list V) :
  NoDup names → NoDup (zip names vals).*1.
Proof.
  intros Hnd. revert vals. induction Hnd as [|n ns Hn Hnd IH]; intros [|v vs];
    simpl; try constructor; [|by apply IH].
  intros Hin. apply Hn. apply list_elem_of_fmap in Hin as ([k w] & -> & Hin).
  by apply elem_of_zip_l in Hin.
Qed.

Lemma dict_lookup_zip {V} (names : list string) (vals : list V) i k :
  NoDup names → names !! i = Some k → dict (zip names vals) !! k = vals !! i.
Proof.
  intros Hnd Hi. unfold dict.
  rewrite (list_to_map_proper _ (zip names vals)).
  2:{ rewrite fmap_reverse, reverse_Permutation. by apply NoDup_fst_zip. }
  2:{ apply reverse_Permutation. }
  revert i vals Hi. induction Hnd as [|n ns Hn Hnd IH]; intros i vals Hi; [done|].
  destruct vals as [|v vs]; simpl.
  { rewrite lookup_empty. symmetry. apply lookup_nil. }
  destruct i as [|i]; simpl in *.
  - injection Hi as ->. apply lookup_insert_eq.
  - rewrite lookup_insert_ne; [by apply IH|].
    intros ->. apply Hn. by eapply list_elem_of_lookup_2.
Qed.

Lemma NoDup_keys : NoDup keys.
Proof. by apply (bool_decide_unpack _). Qed.

Lemma field_fmap (f : string → value) cols c :
  field cols (f <$> cols) c = if bool_decide (c ∈ cols) then Some (f c) else None.
Proof.
  unfold field. case_bool_decide as Hc.
  - destruct (index_of_elem c cols Hc) as [i Hi]. rewrite Hi. simpl.
    apply index_of_Some in Hi. by rewrite list_lookup_fmap, Hi.
  - by rewrite index_of_not_elem.
Qed.

(** What the inserted row holds under each column it was given. *)
Lemma field_new_row cols names vals i k :
  NoDup names → names !! i = Some k → k ∈ cols →
  List.length vals = List.length names →
  field cols (new_row cols names vals) k = text_affinity <$> vals !! i.
Proof.
  intros Hnd Hi Hk Hlen. unfold new_row. rewrite field_fmap, bool_decide_eq_true_2 by done.
  rewrite (dict_lookup_zip names vals i k) by done.
  destruct (vals !! i) as [v|] eqn:Hv; [done|].
  apply lookup_ge_None in Hv. apply lookup_lt_Some in Hi. lia.
Qed.


Lemma columns_present (names cols : list string) :
  names ⊆ cols → list_find (λ c, c ∉ cols) names = None.
Proof.
  intros Hsub. apply list_find_None, Forall_forall. intros c Hc Hnin.
  by apply Hnin, Hsub.
Qed.

Lemma key_taken_uname t r u :
  primary_key t = Some "uname" →
  field (columns t) r "uname" = Some (VText u) →
  key_taken t r =
    if bool_decide (Exists (has_uname (columns t) u) (rows t))
    then Some "uname" else None.
Proof.
  intros Hpk Hr. unfold key_taken. rewrite Hpk. simpl. rewrite Hr. simpl.
  unfold has_uname.
  destruct (decide (Exists (λ r', field (columns t) r' "uname" = Some (VText u)) (rows t)))
    as [Hex|Hex].
  - rewrite !bool_decide_eq_true_2; done.
  - rewrite !bool_decide_eq_false_2; [done..|]. by intros [_ ?].
Qed.

(** The insert statement on a table that has the schema's columns and keeps
    the key on [uname]. *)
Lemma insert_into_keys t vals u :
  keys ⊆ columns t → primary_key t = Some "uname" →
  List.length vals = List.length keys →
  text_affinity <$> vals !! 0 = Some (VText u) →
  insert_into keys vals (Some t) =
    if bool_decide (Exists (has_uname (columns t) u) (rows t))
    then (Some t, Raise (IntegrityError "UNIQUE constraint failed: students.uname"))
    else (Some (Table (columns t) (primary_key t)
                  (rows t ++ [new_row (columns t) keys vals])), Return ()).
Proof.
  intros Hsub Hpk Hlen Hu. unfold insert_into, with_table.
  rewrite (columns_present keys (columns t) Hsub).
  rewrite bool_decide_eq_false_2 by (intros ?; done).
  rewrite (key_taken_uname t _ u Hpk).
  2:{ rewrite (field_new_row _ keys vals 0 "uname"); try done.
      - apply NoDup_keys.
      - apply Hsub. by apply (bool_decide_unpack _). }
  by case_bool_decide.
Qed.

(** C2.  Inserting a record whose username some stored record already has
    raises the key violation and leaves the store as it was: the same rows,
    each with the same fields; the registration form reports the duplicate. *)
Theorem insert_existing_username (t : table) (values : list value) (u : string) :
  keys ⊆ columns t →
  primary_key t = Some "uname" →
  List.length values = List.length keys →
  text_affinity <$> values !! 0 = Some (VText u) →
  Exists (has_uname (columns t) u) (rows t) →
  insert_into keys values (Some t) =
    (Some t, Raise (IntegrityError "UNIQUE constraint failed: students.uname")) ∧
  register values (Some t) =
    (Some t, Return (st_error "Username already exists. Choose a different username.")).
Proof.
  intros Hsub Hpk Hlen Hu Hex.
  assert (insert_into keys values (Some t) =
    (Some t, Raise (IntegrityError "UNIQUE constraint failed: students.uname"))) as Hins.
  { rewrite (insert_into_keys t values u) by done. by rewrite bool_decide_eq_true_2. }
  split; [done|]. unfold register, try_except, mbind, sql_bind. by rewrite Hins.
Qed.

Lemma insert_existing_username_witness :
  insert_into keys (VText <$> bob) (Some one_user) =
    (Some one_user, Raise (IntegrityError "UNIQUE constraint failed: students.uname")).
Proof.
  apply (insert_existing_username one_user (VText <$> bob) "bob").
  - evaluate.
  - reflexivity.
  - reflexivity.
  - reflexivity.
  - evaluate.
Defined.

Lemma keys_present (cs cols : list string) :
  cs ⊆ keys → keys ⊆ cols → cs ⊆ cols.
Proof. intros Hcs Hsub c Hc. by apply Hsub, Hcs. Qed.

Lemma with_columns_present {A} cs (k : table → sql A) t :
  cs ⊆ columns t → with_columns cs k (Some t) = k t (Some t).
Proof.
  intros Hsub. unfold with_columns, with_table. by rewrite columns_present.
Qed.

(** The login query returns a stored row whose [uname] and [pwd] are the
    very strings given, and nothing when no row has both. *)
Lemma find_by_credentials_spec t u p :
  ["uname"; "pwd"] ⊆ columns t →
  ∃ found,
    find_by_credentials u p (Some t) = (Some t, Return found) ∧
    match found with
    | Some r =>
        r ∈ rows t ∧
        field (columns t) r "uname" = Some (VText u) ∧
        field (columns t) r "pwd" = Some (VText p)
    | None =>
        ∀ r, r ∈ rows t →
          ¬ (field (columns t) r "uname" = Some (VText u) ∧
             field (columns t) r "pwd" = Some (VText p))
    end.
Proof.
  intros Hsub. unfold find_by_credentials, select_by_credentials.
  rewrite with_columns_present by done.
  destruct (list_find (has_credentials (columns t) u p) (rows t)) as [[i r]|] eqn:Hf.
  - exists (Some r). split; [done|].
    apply list_find_Some in Hf as (Hi & [Hu Hp] & _).
    split; [by eapply list_elem_of_lookup_2|done].
  - exists None. split; [done|]. intros r Hr.
    apply list_find_None in Hf. by eapply Forall_forall in Hf.
Qed.



(** The registration form hands the year over as an [int]: the TEXT column
    stores its decimal text, and that is what the login query returns. *)
Lemma register_year_as_text :
  ∃ t' r,
    register (<[15 := VInt 2024]> (VText <$> alice)) (Some one_user) =
      (Some t', Return (st_success "✅ Registered successfully. Please log in.")) ∧
    find_by_credentials "alice" "Zz9#zzzz" (Some t') = (Some t', Return (Some r)) ∧
    field (columns t') r "scheme" = Some (VText "2024").
Proof. eexists _, _. split; [by vm_compute|]. split; by vm_compute. Qed.

(** ** The schema reconciler *)

Lemma add_missing_cons existing col dtype schema :
  add_missing existing ((col, dtype) :: schema) =
  (if bool_decide (col ∉ existing) then alter_add_column col dtype else mret ())
    ≫= λ _, add_missing existing schema.
Proof. done. Qed.

Lemma filter_nothing {A} (P : A → Prop) `{∀ x, Decision (P x)} (l : list A) :
  (∀ x, x ∈ l → ¬ P x) → filter P l = [].
Proof.
  intros Hnone. destruct (filter P l) as [|x l'] eqn:Hf; [done|].
  assert (x ∈ filter P l) as [Hx Hin]%list_elem_of_filter by (rewrite Hf; by left).
  by destruct (Hnone x Hin).
Qed.

Lemma fmap_app_nil (rs : list (list value)) : (λ r, r ++ []) <$> rs = rs.
Proof.
  rewrite <- (list_fmap_id rs) at 2. apply list_fmap_ext.
  intros i r _. apply app_nil_r.
Qed.

(** A schema without a key column: each missing column is appended, in the
    order of the schema, and the rows get a NULL for each. *)
Lemma add_missing_no_key (existing : gset string) schema t :
  NoDup schema.*1 →
  Forall (λ cd, declares_primary_key cd.2 = false) schema →
  (∀ c, c ∈ columns t → c ∈ existing ∨ c ∉ schema.*1) →
  add_missing existing schema (Some t) =
    (Some (Table (columns t ++ filter (λ c, c ∉ existing) schema.*1)
                 (primary_key t)
                 ((λ r, r ++ replicate
                          (List.length (filter (λ c, c ∉ existing) schema.*1)) VNull)
                    <$> rows t)),
     Return ()).
Proof.
  revert t. induction schema as [|[col dtype] schema IH]; intros t Hnd Hpk Hcols.
  - destruct t as [cols pk rs]. simpl. unfold mret, sql_ret.
    by rewrite app_nil_r, fmap_app_nil.
  - rewrite add_missing_cons. rewrite fmap_cons in Hnd, Hcols |- *. cbn [fst] in *.
    apply NoDup_cons in Hnd as [Hcol Hnd]. apply Forall_cons in Hpk as [Hd Hpk].
    cbn [snd] in Hd. case_bool_decide as Hex.
    + rewrite filter_cons_True by done.
      unfold mbind at 1, sql_bind. unfold alter_add_column, with_table.
      rewrite bool_decide_eq_false_2.
      2:{ intros Hin. destruct (Hcols col Hin) as [?|Hn]; [done|]. apply Hn. by left. }
      rewrite Hd. rewrite IH; try done.
      * cbn [columns primary_key rows length replicate].
        rewrite <- app_assoc, <- list_fmap_compose. cbn [app].
        do 3 f_equal. apply list_fmap_ext.
        intros i r _. cbn. by rewrite <- app_assoc.
      * cbn [columns].
        intros c [Hc| ->%list_elem_of_singleton]%elem_of_app; [|by right].
        destruct (Hcols c Hc) as [?|Hn]; [by left|]. right. intros ?. apply Hn.
        by right.
    + rewrite filter_cons_False by (intros Hn; by apply Hn).
      unfold mbind at 1, sql_bind. cbn [mret sql_ret]. apply IH; try done.
      intros c Hc. destruct (Hcols c Hc) as [?|Hn]; [by left|]. right.
      intros ?. apply Hn. by right.
Qed.

Lemma table_with_nothing_added t :
  Table (columns t ++ []) (primary_key t)
    ((λ r, r ++ replicate 0 VNull) <$> rows t) = t.
Proof.
  destruct t as [cols pk rs]. simpl. by rewrite app_nil_r, fmap_app_nil.
Qed.

(** A run of the reconciler on a live table, by the columns it adds. *)
Lemma ensure_table_and_columns_live t :
  ∃ added r,
    ensure_table_and_columns (Some t) =
      (Some (Table (columns t ++ added) (primary_key t)
               ((λ row, row ++ replicate (List.length added) VNull) <$> rows t)), r) ∧
    (keys ⊆ columns t → added = [] ∧ r = Return ()) ∧
    (r = Return () → keys ⊆ columns t ++ added) ∧
    (r ≠ Return () → added = [] ∧ "uname" ∉ columns t).
Proof.
  unfold ensure_table_and_columns, reconcile.
  unfold mbind at 1, sql_bind, table_exists. simpl.
  unfold mbind at 1, sql_bind, table_info. simpl.
  set (existing := list_to_set (columns t) : gset string).
  change DESIRED_SCHEMA with (("uname", "TEXT PRIMARY KEY") :: tail DESIRED_SCHEMA).
  unfold mbind at 1, sql_bind.
  rewrite add_missing_cons.
  destruct (decide ("uname" ∈ columns t)) as [Hu|Hu].
  - rewrite bool_decide_eq_false_2.
    2:{ intros Hn. apply Hn. unfold existing. by apply elem_of_list_to_set. }
    unfold mbind at 1, sql_bind. simpl mret. cbv beta iota.
    unfold mret at 1, sql_ret at 1. cbv beta iota.
    rewrite add_missing_no_key.
    + exists (filter (λ c, c ∉ existing) (tail DESIRED_SCHEMA).*1), (Return ()).
      split; [done|]. split; [|split; [|done]].
      * intros Hsub. split; [|done]. apply filter_nothing.
        intros c Hc Hn. apply Hn. unfold existing.
        apply elem_of_list_to_set, Hsub. by right.
      * intros _ c Hc. destruct (decide (c ∈ columns t)) as [?|Hn].
        { apply elem_of_app. by left. }
        apply elem_of_app. right. apply list_elem_of_filter. split.
        -- unfold existing. by rewrite elem_of_list_to_set.
        -- apply elem_of_cons in Hc as [->|Hc]; done.
    + by apply (bool_decide_unpack _).
    + by apply (bool_decide_unpack _).
    + intros c Hc. left. unfold existing. by apply elem_of_list_to_set.
  - rewrite bool_decide_eq_true_2.
    2:{ unfold existing. by rewrite elem_of_list_to_set. }
    unfold mbind at 1, sql_bind. unfold alter_add_column, with_table.
    rewrite bool_decide_eq_false_2 by done.
    replace (declares_primary_key "TEXT PRIMARY KEY") with true by (by vm_compute).
    exists [], (Raise (OperationalError "Cannot add a PRIMARY KEY column")).
    unfold raise. rewrite table_with_nothing_added. split; [done|].
    split; [|split; [done|done]].
    intros Hsub. exfalso. apply Hu, Hsub. by left.
Qed.

(** On an empty database the reconciler creates the table with the columns
    of the schema, in its order and keyed by [uname]; a second run leaves it. *)
Lemma ensure_table_and_columns_fresh :
  ensure_table_and_columns None = (Some created, Return ()) ∧
  ensure_table_and_columns (Some created) = (Some created, Return ()).
Proof. split; by vm_compute. Qed.

(** C5.  Run on a live table, the reconciler keeps every column where it was
    and every row's values as they were: columns are only appended, rows only
    extended by NULLs.  A second run right after changes nothing and ends as
    the first did, and a table that already has all columns of the schema is
    left as it is. *)
Theorem ensure_table_and_columns_idempotent (t : table) :
  ∃ (t1 : table) (added : list string) (r : outcome ()),
    ensure_table_and_columns (Some t) = (Some t1, r) ∧
    columns t1 = columns t ++ added ∧
    primary_key t1 = primary_key t ∧
    rows t1 = (λ row, row ++ replicate (List.length added) VNull) <$> rows t ∧
    ensure_table_and_columns (Some t1) = (Some t1, r) ∧
    (keys ⊆ columns t → t1 = t ∧ r = Return ()).
Proof.
  destruct (ensure_table_and_columns_live t) as (added & r & Hrun & Hsat & Hok & Hfail).
  eexists _, added, r. split; [exact Hrun|]. cbn [columns primary_key rows].
  split; [done|]. split; [done|]. split; [done|]. split.
  - assert (r = Return () ∨ r ≠ Return ()) as [Hr|Hr]
      by (destruct r as [[]|e]; [by left|by right]).
    + destruct (ensure_table_and_columns_live
                  (Table (columns t ++ added) (primary_key t)
                     ((λ row, row ++ replicate (List.length added) VNull) <$> rows t)))
        as (added' & r' & Hrun' & Hsat' & _ & _).
      destruct (Hsat' (Hok Hr)) as [-> ->]. rewrite Hrun', Hr.
      by rewrite table_with_nothing_added.
    + destruct (Hfail Hr) as [-> Hu]. cbn [List.length].
      rewrite table_with_nothing_added in Hrun |- *. exact Hrun.
  - intros Hsub. destruct (Hsat Hsub) as [-> ->]. split; [|done].
    apply table_with_nothing_added.
Qed.

(** ** Administrative actions *)

Lemma delete_user_other t u :
  u ≠ "" → u ≠ "admin" → "uname" ∈ columns t →
  delete_user u (Some t) =
    (Some (Table (columns t) (primary_key t)
             (filter (λ r, ¬ has_uname (columns t) u r) (rows t))),
     Return (st_success ("Deleted user: " +:+ u))).
Proof.
  intros Hne Hadm Hcol. unfold delete_user.
  rewrite bool_decide_eq_true_2, bool_decide_eq_false_2 by done.
  unfold mbind, sql_bind, delete_by_uname.
  rewrite with_columns_present; [done|].
  by intros c ->%list_elem_of_singleton.
Qed.

Lemma filter_all {A} (P : A → Prop) `{∀ x, Decision (P x)} (l : list A) :
  Forall P l → filter P l = l.
Proof.
  induction 1 as [|x l Hx Hl IH]; [done|]. by rewrite filter_cons_True, IH.
Qed.

Lemma reset_password_other t u p :
  u ≠ "" → p ≠ "" → u ≠ "admin" → ["pwd"; "uname"] ⊆ columns t →
  reset_password u p (Some t) =
    (Some (Table (columns t) (primary_key t)
             ((λ r, if decide (has_uname (columns t) u r)
                    then from_option (λ i, <[i := VText p]> r) r
                           (index_of "pwd" (columns t))
                    else r) <$> rows t)),
     Return (st_success ("Password reset for " +:+ u))).
Proof.
  intros Hu Hp Hadm Hcols. unfold reset_password.
  rewrite !bool_decide_eq_true_2, bool_decide_eq_false_2 by done. cbn [andb].
  unfold mbind, sql_bind, update_pwd. by rewrite with_columns_present.
Qed.

(** Setting the password of a row changes its [pwd] and no other field. *)
Lemma field_set_pwd cols r i p c :
  NoDup cols → List.length r = List.length cols →
  index_of "pwd" cols = Some i →
  field cols (<[i := VText p]> r) c =
    if decide (c = "pwd") then Some (VText p) else field cols r c.
Proof.
  intros Hnd Hlen Hi. unfold field. case_decide as Hc.
  - subst c. rewrite Hi. simpl. apply list_lookup_insert_eq.
    apply index_of_Some, lookup_lt_Some in Hi. lia.
  - destruct (index_of c cols) as [j|] eqn:Hj; [|done]. simpl.
    apply list_lookup_insert_ne. intros ->.
    apply index_of_Some in Hi, Hj. congruence.
Qed.

(** C8 (as amended).  The administrative record is protected: deleting
    [admin] is refused, and so is resetting its password to any non-empty
    password.  An empty username, or an empty new password, is refused as
    missing input, whoever it names.  Deleting another non-empty username
    removes the records with that username and no other, nothing when there is
    none; resetting the password of another non-empty username to a non-empty
    password sets the [pwd] field of the records with that username and
    nothing else, nothing when there is none. *)
Theorem admin_actions_guarded :
  (∀ db, delete_user "admin" db =
           (db, Return (st_error "Cannot delete the admin user."))) ∧
  (∀ db, delete_user "" db =
           (db, Return (st_error "Enter a username to delete."))) ∧
  (∀ t u, u ≠ "" → u ≠ "admin" → "uname" ∈ columns t →
     ∃ t', delete_user u (Some t) =
             (Some t', Return (st_success ("Deleted user: " +:+ u))) ∧
           columns t' = columns t ∧
           rows t' = filter (λ r, ¬ has_uname (columns t) u r) (rows t) ∧
           (Forall (λ r, ¬ has_uname (columns t) u r) (rows t) → t' = t)) ∧
  (∀ db p, p ≠ "" →
     reset_password "admin" p db =
       (db, Return (st_error "Reset admin password directly in DB or change after login."))) ∧
  (∀ db u p, u = "" ∨ p = "" →
     reset_password u p db =
       (db, Return (st_error "Provide username and new password."))) ∧
  (∀ t u p, u ≠ "" → p ≠ "" → u ≠ "admin" → ["pwd"; "uname"] ⊆ columns t →
     wf_table t →
     ∃ t', reset_password u p (Some t) =
             (Some t', Return (st_success ("Password reset for " +:+ u))) ∧
           columns t' = columns t ∧
           List.length (rows t') = List.length (rows t) ∧
           (∀ i r, rows t !! i = Some r →
              ∃ r', rows t' !! i = Some r' ∧
                    if decide (has_uname (columns t) u r)
                    then ∀ c, field (columns t) r' c =
                              if decide (c = "pwd") then Some (VText p)
                              else field (columns t) r c
                    else r' = r) ∧
           (Forall (λ r, ¬ has_uname (columns t) u r) (rows t) → t' = t)).
Proof.
  split; [done|]. split; [done|]. split; [|split; [|split]].
  - intros t u Hu Hadm Hcol. eexists. split; [by apply delete_user_other|].
    cbn [columns rows]. split; [done|]. split; [done|].
    intros Habs. destruct t as [cols pk rs]. cbn in *. by rewrite filter_all.
  - intros db p Hp. unfold reset_password.
    by rewrite (bool_decide_eq_true_2 (p ≠ "")) by done.
  - intros db u p [-> | ->]; unfold reset_password; [done|].
    by rewrite andb_false_r.
  - intros t u p Hu Hp Hadm Hcols [Hnd Hwf].
    eexists. split; [by apply reset_password_other|]. cbn [columns rows].
    assert ("pwd" ∈ columns t) as Hpwd by (apply Hcols; by left).
    destruct (index_of_elem _ _ Hpwd) as [j Hj]. rewrite Hj. cbn [from_option].
    split; [done|]. split; [by rewrite length_fmap|]. split.
    + intros i r Hr. rewrite list_lookup_fmap, Hr. cbn. eexists. split; [done|].
      case_decide; [|done]. intros c. apply field_set_pwd; try done.
      eapply Forall_lookup_1 in Hwf; [|exact Hr]. done.
    + intros Habs. destruct t as [cols pk rs]. cbn in *. f_equal.
      rewrite <- (list_fmap_id rs) at 2. apply list_fmap_ext. intros i r Hr.
      rewrite decide_False; [done|]. by eapply Forall_lookup_1 in Habs.
Qed.

Lemma admin_actions_guarded_witness :
  ∃ t', reset_password "bob" "N3w#pass" (Some two_users) =
          (Some t', Return (st_success ("Password reset for " +:+ "bob"))) ∧
        columns t' = columns two_users ∧
        List.length (rows t') = List.length (rows two_users) ∧
        (∀ i r, rows two_users !! i = Some r →
           ∃ r', rows t' !! i = Some r' ∧
                 if decide (has_uname (columns two_users) "bob" r)
                 then ∀ c, field (columns two_users) r' c =
                           if decide (c = "pwd") then Some (VText "N3w#pass")
                           else field (columns two_users) r c
                 else r' = r) ∧
        (Forall (λ r, ¬ has_uname (columns two_users) "bob" r) (rows two_users) →
         t' = two_users).
Proof.
  apply (proj2 (proj2 (proj2 (proj2 (proj2 admin_actions_guarded)))) two_users
           "bob" "N3w#pass").
  - discriminate.
  - discriminate.
  - discriminate.
  - evaluate.
  - split; [apply NoDup_keys|]. evaluate.
Defined.

(** C8 (as stated) fails on empty input: resetting the password of [admin]
    to the empty password is refused as missing input, not as a protected
    operation; a reset of another user to the empty password sets nothing; and
    deleting the empty username leaves its record in the store. *)
Lemma admin_actions_empty_input :
  reset_password "admin" "" (Some one_user) =
    (Some one_user, Return (st_error "Provide username and new password.")) ∧
  reset_password "bob" "" (Some one_user) =
    (Some one_user, Return (st_error "Provide username and new password.")) ∧
  Exists (has_uname (columns one_user) "bob") (rows one_user) ∧
  delete_user "" (Some nameless) =
    (Some nameless, Return (st_error "Enter a username to delete.")) ∧
  Exists (has_uname (columns nameless) "") (rows nameless).
Proof.
  split; [done|]. split; [done|]. split; [evaluate|]. split; [done|]. evaluate.
Qed.

(** ** The login form *)

Lemma keys_columns_length t :
  keys ⊆ columns t → List.length keys ≤ List.length (columns t).
Proof.
  intros Hsub. apply submseteq_length, NoDup_submseteq; [apply NoDup_keys|done].
Qed.

(** One submitted form, by its three outcomes. *)
Lemma submit_login_cases entropy t w uname pwd answer :
  keys ⊆ columns t → wf_table t →
  (answer ≠ Some (captcha (session w)).2 ∧
   submit_login entropy uname pwd answer w (Some t) =
     (regenerate_captcha entropy (count_failure w),
      Return (st_error "Captcha incorrect. Please try again."))) ∨
  (answer = Some (captcha (session w)).2 ∧
   (∀ r, r ∈ rows t → ¬ has_credentials (columns t) uname pwd r) ∧
   submit_login entropy uname pwd answer w (Some t) =
     (regenerate_captcha entropy (count_failure w),
      Return (st_error "❌ Invalid credentials."))) ∨
  (answer = Some (captcha (session w)).2 ∧
   ∃ r name, r ∈ rows t ∧ has_credentials (columns t) uname pwd r ∧
     r !! 2 = Some name ∧
     submit_login entropy uname pwd answer w (Some t) =
       (regenerate_captcha entropy (log_in r w),
        Return (st_success ("✅ Welcome " +:+ py_str name +:+ "!")))).
Proof.
  intros Hsub [Hnd Hwf]. unfold submit_login.
  case_bool_decide as Hans; cbn [negb]; [|by left]. right.
  destruct (find_by_credentials_spec t uname pwd) as (found & Hfind & Hfound).
  { by apply (keys_present ["uname"; "pwd"]); [evaluate|]. }
  rewrite Hfind. cbn [snd]. destruct found as [r|].
  - right. split; [done|]. destruct Hfound as (Hr & Hu & Hp).
    assert (List.length r = List.length (columns t)) as Hlen
      by (by eapply Forall_forall in Hwf).
    pose proof (keys_columns_length t Hsub) as Hk. change (List.length keys) with 20 in Hk.
    destruct r as [|x r]; [simpl in Hlen; lia|].
    destruct ((x :: r) !! 2) as [name|] eqn:Hname.
    + by exists (x :: r), name.
    + apply lookup_ge_None in Hname. lia.
  - left. split; [done|]. split; [|done]. intros r Hr [Hu Hp]. by apply (Hfound r).
Qed.

Lemma randint_range entropy lo hi pos :
  (lo ≤ hi)%Z → (lo ≤ randint entropy lo hi pos ≤ hi)%Z.
Proof.
  intros Hle. unfold randint.
  pose proof (Z.mod_pos_bound (entropy pos) (hi - lo + 1)) as Hb. lia.
Qed.

(** C6.  Whatever a submitted login form leads to (a wrong captcha answer,
    wrong credentials, or a login), the challenge is replaced by one made
    from the next two draws of the random generator, each between 2 and 12,
    so every attempt gets draws no other attempt uses.  The failure counter
    goes up by one on a wrong captcha answer and on wrong credentials, and
    back to zero on a login. *)
Theorem login_regenerates_captcha (entropy : nat → Z) (t : table) (w : client)
    (uname pwd : string) (answer : option Z) :
  keys ⊆ columns t →
  wf_table t →
  (∃ w' msg,
     submit_login entropy uname pwd answer w (Some t) = (w', Return msg) ∧
     captcha (session w') = challenge_at entropy (drawn w) ∧
     drawn w' = S (S (drawn w)) ∧
     (2 ≤ (captcha (session w')).1.1 ≤ 12)%Z ∧
     (2 ≤ (captcha (session w')).1.2 ≤ 12)%Z ∧
     (captcha (session w')).2 =
       ((captcha (session w')).1.1 + (captcha (session w')).1.2)%Z ∧
     match msg with
     | st_success _ =>
         answer = Some (captcha (session w)).2 ∧
         (∃ r, user_data (session w') = Some r ∧ r ∈ rows t ∧
               has_credentials (columns t) uname pwd r) ∧
         logged_in (session w') = true ∧
         login_failed_count (session w') = 0%Z
     | st_error _ =>
         (answer ≠ Some (captcha (session w)).2 ∨
          ∀ r, r ∈ rows t → ¬ has_credentials (columns t) uname pwd r) ∧
         user_data (session w') = user_data (session w) ∧
         logged_in (session w') = logged_in (session w) ∧
         login_failed_count (session w') = (login_failed_count (session w) + 1)%Z
     end) ∧
  (∀ attempts,
     challenges entropy attempts w (Some t) =
       (λ k, challenge_at entropy (drawn w + 2 * k)) <$> seq 0 (List.length attempts)).
Proof.
  intros Hsub Hwf. split.
  - assert (∀ pos, (2 ≤ (challenge_at entropy pos).1.1 ≤ 12)%Z ∧
                   (2 ≤ (challenge_at entropy pos).1.2 ≤ 12)%Z) as Hrange.
    { intros pos. split; apply randint_range; lia. }
    destruct (submit_login_cases entropy t w uname pwd answer Hsub Hwf)
      as [[Hans ->]|[(Hans & Hnone & ->)|(Hans & r & name & Hr & Hcred & _ & ->)]];
      eexists _, _; (split; [reflexivity|]); cbn; repeat split;
      try apply Hrange; auto.
    exists r. auto.
  - intros attempts. revert w.
    induction attempts as [|[[u p] a] attempts IH]; intros w; [done|].
    cbn [challenges List.length seq fmap list_fmap].
    assert (captcha (session (submit_login entropy u p a w (Some t)).1) =
              challenge_at entropy (drawn w) ∧
            drawn (submit_login entropy u p a w (Some t)).1 = S (S (drawn w)))
      as [Hc Hd].
    { destruct (submit_login_cases entropy t w u p a Hsub Hwf)
        as [[_ ->]|[(_ & _ & ->)|(_ & r & name & _ & _ & _ & ->)]]; done. }
    rewrite Hc, IH, Hd. rewrite Nat.mul_0_r, Nat.add_0_r. f_equal.
    rewrite <- fmap_S_seq, <- list_fmap_compose. apply list_fmap_ext.
    intros i k _. cbn. f_equal. lia.
Qed.

Lemma login_regenerates_captcha_witness :
  challenges dice [("bob", "guess", Some 13%Z); ("bob", "Pw1@aaaa", None);
                   ("bob", "Pw1@aaaa", Some 12%Z)]
    anonymous (Some one_user) =
  (λ k, challenge_at dice (drawn anonymous + 2 * k)) <$> seq 0 3.
Proof.
  refine (proj2 (login_regenerates_captcha dice one_user anonymous "" "" None _ _) _).
  - evaluate.
  - split; [apply NoDup_keys|evaluate].
Defined.

(** The draws are new, their values need not be: a generator that repeats
    itself gives the same operands again. *)
Lemma challenge_may_repeat :
  let w := Client (Session false None 0 (2, 2, 4)%Z) 0 in
  captcha (session (submit_login (λ _, 0%Z) "bob" "guess" None w (Some one_user)).1) =
  captcha (session w).
Proof. by vm_compute. Qed.

(** ** Bulk import *)

Lemma uname_of_has cols r u : uname_of cols r = Some u ↔ has_uname cols u r.
Proof.
  unfold uname_of, has_uname.
  destruct (field cols r "uname") as [[|z|s]|]; split; congruence.
Qed.

Lemma elem_of_unames t u :
  u ∈ unames t ↔ Exists (has_uname (columns t) u) (rows t).
Proof.
  unfold unames. rewrite elem_of_list_to_set, list_elem_of_omap, Exists_exists.
  split; intros (r & Hr & Hu); exists r; (split; [done|]); by apply uname_of_has.
Qed.

Lemma unames_append t r :
  unames (Table (columns t) (primary_key t) (rows t ++ [r])) =
  match uname_of (columns t) r with
  | Some u => {[u]} ∪ unames t
  | None => unames t
  end.
Proof.
  unfold unames. cbn [columns rows]. rewrite omap_app, list_to_set_app_L.
  cbn [omap list_omap]. destruct (uname_of (columns t) r).
  - rewrite list_to_set_cons, list_to_set_nil, (right_id_L ∅ (∪)).
    apply (comm_L (∪)).
  - by rewrite list_to_set_nil, (right_id_L ∅ (∪)).
Qed.

Lemma row_values_length row : List.length (row_values row) = List.length keys.
Proof. unfold row_values. by rewrite length_fmap. Qed.

Lemma row_values_head row :
  (∃ u, head (row_values row) = Some (VText u)) ∨ head (row_values row) = Some VNull.
Proof.
  unfold row_values. change keys with ("uname" :: tail keys). cbn [fmap list_fmap head].
  destruct (default (Some "") (row !! "uname")) as [u|]; cbn; eauto.
Qed.

Lemma head_lookup {A} (l : list A) : l !! 0 = head l.
Proof. by destruct l. Qed.

Lemma uname_of_new_row t vals :
  keys ⊆ columns t → List.length vals = List.length keys →
  uname_of (columns t) (new_row (columns t) keys vals) =
  match text_affinity <$> head vals with
  | Some (VText u) => Some u
  | _ => None
  end.
Proof.
  intros Hsub Hlen. unfold uname_of.
  rewrite (field_new_row _ keys vals 0 "uname"); try done.
  - by rewrite head_lookup.
  - apply NoDup_keys.
  - apply Hsub. evaluate.
Qed.

Lemma insert_into_keys_null t vals :
  keys ⊆ columns t → primary_key t = Some "uname" →
  List.length vals = List.length keys →
  head vals = Some VNull →
  insert_into keys vals (Some t) =
    (Some (Table (columns t) (primary_key t)
             (rows t ++ [new_row (columns t) keys vals])), Return ()).
Proof.
  intros Hsub Hpk Hlen Hu. unfold insert_into, with_table.
  rewrite (columns_present keys (columns t) Hsub).
  rewrite bool_decide_eq_false_2 by (intros ?; done).
  unfold key_taken. rewrite Hpk. cbn [mbind option_bind].
  rewrite (field_new_row _ keys vals 0 "uname"); try done.
  - rewrite head_lookup, Hu. cbn. rewrite bool_decide_eq_false_2; [done|].
    by intros [? _].
  - apply NoDup_keys.
  - apply Hsub. evaluate.
Qed.

(** The loop of the import, from any table, row number and counters: the
    records whose username is new are inserted in order, each of the others
    leaves one error line, and the loop never raises. *)
Lemma import_rows_spec t i reader imported errors :
  keys ⊆ columns t → primary_key t = Some "uname" →
  import_rows i reader imported errors (Some t) =
    (Some (Table (columns t) (primary_key t)
             (rows t ++ (new_row (columns t) keys <$>
                           accepted (row_values <$> reader)
                             (first_uses (unames t) (row_values <$> reader))))),
     Return (imported + List.length
                          (accepted (row_values <$> reader)
                             (first_uses (unames t) (row_values <$> reader))),
             errors ++ rejected i (first_uses (unames t) (row_values <$> reader)))).
Proof.
  intros Hsub Hpk. revert t i imported errors Hsub Hpk.
  induction reader as [|row reader IH]; intros t i imported errors Hsub Hpk.
  - cbn. unfold mret, sql_ret. rewrite !app_nil_r, Nat.add_0_r.
    by destruct t.
  - cbn [import_rows fmap list_fmap first_uses].
    pose proof (row_values_length row) as Hlen.
    unfold mbind at 1, sql_bind at 1, try_except.
    unfold mbind at 1, sql_bind at 1.
    destruct (row_values_head row) as [[u Hu]|Hu]; rewrite Hu.
    + rewrite (insert_into_keys t _ u); try done.
      2:{ by rewrite head_lookup, Hu. }
      destruct (decide (Exists (has_uname (columns t) u) (rows t))) as [Hex|Hex].
      * rewrite bool_decide_eq_true_2 by done.
        rewrite bool_decide_eq_false_2 by (intros Hn; by apply Hn, elem_of_unames).
        cbn [mret sql_ret fst snd accepted rejected app].
        rewrite (subseteq_union_1_L {[u]} (unames t))
          by (by apply singleton_subseteq_l, elem_of_unames).
        rewrite IH by done. by rewrite <- app_assoc.
      * rewrite bool_decide_eq_false_2 by done.
        rewrite bool_decide_eq_true_2 by (by rewrite elem_of_unames).
        cbn [mret sql_ret fst snd accepted rejected app].
        rewrite IH by done. cbn [columns primary_key rows].
        rewrite unames_append, uname_of_new_row, Hu by done.
        cbn [fmap option_fmap option_map text_affinity].
        rewrite fmap_cons, <- app_assoc. cbn [app List.length].
        by rewrite Nat.add_succ_comm.
    + rewrite insert_into_keys_null by done.
      cbn [mret sql_ret fst snd accepted rejected app].
      rewrite IH by done. cbn [columns primary_key rows].
      rewrite unames_append, uname_of_new_row, Hu by done.
      cbn [fmap option_fmap option_map text_affinity].
      rewrite fmap_cons, <- app_assoc. cbn [app List.length].
      by rewrite Nat.add_succ_comm.
Qed.



Lemma keys_subset_set (names : list string) :
  (list_to_set keys : gset string) ⊆ list_to_set names ↔ keys ⊆ names.
Proof.
  split.
  - intros Hsub k Hk. apply (elem_of_list_to_set (C := gset string)), Hsub.
    by apply elem_of_list_to_set.
  - intros Hsub k Hk%elem_of_list_to_set. by apply elem_of_list_to_set, Hsub.
Qed.





(** Five records, one of them a duplicate: four rows are gained and the one
    error names the fourth physical row. *)
Lemma import_five_rows :
  ∃ t', import_users_from_csv five_rows (Some created) =
          (Some t', Return (4, ["Row 4: UNIQUE constraint failed: students.uname"])) ∧
        List.length (rows t') = 4.
Proof. eexists. split; [by vm_compute|done]. Qed.

(** A row with an empty [uname] cell is imported as the record of the empty
    username. *)
Lemma import_nameless :
  import_users_from_csv [keys; "" :: tail bob] (Some created) =
    (Some nameless, Return (1, [])).
Proof. by vm_compute. Qed.

(** A file without any row has no field names: the header test raises. *)
Lemma import_empty_file_raises db :
  import_users_from_csv [] db =
    (db, Raise (TypeError "'NoneType' object is not iterable")).
Proof. done. Qed.

(** ** Export and import *)










(** ** The validators of names and marks *)

Lemma lstrip_spec sp s :
  ∃ pre, s = pre ++ lstrip sp s ∧ forallb sp pre = true ∧
         ∀ c, head (lstrip sp s) = Some c → sp c = false.
Proof.
  induction s as [|c t (pre & Ht & Hpre & Hhd)]; simpl.
  - by exists [].
  - destruct (sp c) eqn:Hc.
    + exists (c :: pre). simpl. rewrite Hc, Hpre. split; [by f_equal|done].
    + exists []. split; [done|]. split; [done|]. simpl. by intros ? [= <-].
Qed.

Lemma lstrip_spaces sp pre s : forallb sp pre = true → lstrip sp (pre ++ s) = lstrip sp s.
Proof.
  induction pre as [|c pre IH]; simpl; [done|].
  intros [-> Hpre]%andb_true_iff. by apply IH.
Qed.

Lemma lstrip_kept sp s :
  (∀ c, head s = Some c → sp c = false) → lstrip sp s = s.
Proof. destruct s as [|c t]; simpl; [done|]. intros H. by rewrite (H c). Qed.

Lemma forallb_reverse {A} (p : A → bool) l : forallb p (reverse l) = forallb p l.
Proof.
  induction l as [|x l IH]; [done|].
  rewrite reverse_cons, forallb_app, IH. simpl. rewrite andb_true_r. apply andb_comm.
Qed.

Lemma head_reverse {A} (l : list A) : head (reverse l) = last l.
Proof. by rewrite <- (reverse_involutive l) at 2; rewrite last_reverse. Qed.

Lemma rstrip_spec sp s :
  ∃ post, s = rstrip sp s ++ post ∧ forallb sp post = true ∧
          ∀ c, last (rstrip sp s) = Some c → sp c = false.
Proof.
  unfold rstrip. destruct (lstrip_spec sp (reverse s)) as (pre & Hs & Hpre & Hhd).
  exists (reverse pre). split; [|split].
  - rewrite <- reverse_app, <- Hs. by rewrite reverse_involutive.
  - by rewrite forallb_reverse.
  - intros c Hc. apply Hhd. by rewrite <- last_reverse.
Qed.

Lemma rstrip_head sp s c :
  head s = Some c → sp c = false → head (rstrip sp s) = Some c.
Proof.
  intros Hhd Hc. destruct (rstrip_spec sp s) as (post & Hs & Hpost & _).
  destruct (rstrip sp s) as [|d r]; [|by rewrite Hs in Hhd].
  simpl in Hs. subst s. destruct post as [|d post]; [done|]. simpl in *.
  injection Hhd as ->. rewrite Hc in Hpost. done.
Qed.

(** What [strip] leaves of a string: the part between the white space at
    its two ends. *)
Lemma strip_spec sp s :
  ∃ pre post,
    s = pre ++ strip sp s ++ post ∧
    forallb sp pre = true ∧ forallb sp post = true ∧
    (∀ c, head (strip sp s) = Some c → sp c = false) ∧
    (∀ c, last (strip sp s) = Some c → sp c = false).
Proof.
  unfold strip. destruct (lstrip_spec sp s) as (pre & Hs & Hpre & Hhd).
  destruct (rstrip_spec sp (lstrip sp s)) as (post & Hl & Hpost & Hlast).
  exists pre, post. split; [by rewrite <- Hl|]. split; [done|]. split; [done|].
  split; [|done]. intros c Hc.
  destruct (lstrip sp s) as [|d l] eqn:Hd.
  - by vm_compute in Hc.
  - specialize (Hhd d eq_refl).
    rewrite (rstrip_head sp (d :: l) d eq_refl Hhd) in Hc. by injection Hc as <-.
Qed.

Lemma strip_unique sp pre core post :
  forallb sp pre = true → forallb sp post = true →
  (∃ c, head core = Some c ∧ sp c = false) →
  (∃ c, last core = Some c ∧ sp c = false) →
  strip sp (pre ++ core ++ post) = core.
Proof.
  intros Hpre Hpost (a & Ha & Hsa) (z & Hz & Hsz). unfold strip.
  rewrite lstrip_spaces by done.
  rewrite lstrip_kept.
  2:{ destruct core; [done|]. simpl in *. intros c [= <-]. by injection Ha as ->. }
  unfold rstrip. rewrite reverse_app, lstrip_spaces by (by rewrite forallb_reverse).
  rewrite lstrip_kept; [apply reverse_involutive|].
  intros c. rewrite head_reverse, Hz. by intros [= <-].
Qed.

Lemma strip_in sp s c : c ∈ strip sp s → c ∈ s.
Proof.
  destruct (strip_spec sp s) as (pre & post & Hs & _). intros Hc.
  rewrite Hs, !elem_of_app. auto.
Qed.

(** X1.  [is_valid_name] accepts exactly the names that, between the white
    space [strip] removes at both ends, are made of ASCII letters and spaces
    and begin and end with a letter.  So a name needs a letter: the empty
    name and a name of blanks alone are refused, and so is any digit,
    punctuation mark or letter outside ASCII, while blanks inside and around
    the name are allowed. *)
Theorem is_valid_name_spec (unicode_space : N → bool) (name : list N) :
  unicode_space 32%N = true →
  (∀ c, uppercase c || lowercase c = true → unicode_space c = false) →
  (is_valid_name unicode_space name = true ↔
   ∃ pre core post,
     name = pre ++ core ++ post ∧
     forallb unicode_space pre = true ∧ forallb unicode_space post = true ∧
     forallb name_char core = true ∧
     (∃ c, head core = Some c ∧ uppercase c || lowercase c = true) ∧
     (∃ c, last core = Some c ∧ uppercase c || lowercase c = true)).
Proof.
  intros Hsp Hletter.
  assert (∀ c, name_char c = true → unicode_space c = false →
               uppercase c || lowercase c = true) as Hnc.
  { intros c Hc Hs. unfold name_char in Hc. apply orb_true_iff in Hc as [Hc|Hc]; [done|].
    apply N.eqb_eq in Hc as ->. congruence. }
  unfold is_valid_name. rewrite andb_true_iff, negb_true_iff, bool_decide_eq_false.
  rewrite fullmatch_true. cbn [rests]. rewrite at_least_rests_nil. split.
  - intros (Hne & Hlen & Hall).
    destruct (strip_spec unicode_space name) as (pre & post & Hs & Hpre & Hpost & Hhd & Hlast).
    exists pre, (strip unicode_space name), post. do 4 (split; [done|]).
    rewrite forallb_forall in Hall.
    destruct (strip unicode_space name) as [|a core] eqn:Hcore; [simpl in Hlen; lia|].
    split.
    + exists a. split; [done|]. apply Hnc; [|by apply Hhd]. apply Hall. by left.
    + destruct (last (a :: core)) as [z|] eqn:Hz; [|by apply last_None in Hz].
      exists z. split; [done|]. apply Hnc; [|by apply Hlast].
      apply Hall, list_elem_of_In. by apply last_Some_elem_of.
  - intros (pre & core & post & -> & Hpre & Hpost & Hall & (a & Ha & Hla) & (z & Hz & Hlz)).
    rewrite strip_unique; try done; [|exists a; auto|exists z; auto].
    split; [|split; [|done]].
    + destruct core; [done|]. by destruct pre.
    + destruct core; [done|]. simpl. lia.
Qed.

Lemma is_valid_name_spec_witness :
  is_valid_name ascii_space (codepoints " Asha Rao ") = true.
Proof.
  apply (is_valid_name_spec ascii_space (codepoints " Asha Rao ")).
  - reflexivity.
  - intros c Hc. apply not_true_iff_false. intros Hs. revert Hc Hs.
    unfold ascii_space, uppercase, lowercase, in_range.
    rewrite !orb_true_iff, !andb_true_iff, !N.leb_le, N.eqb_eq. lia.
  - exists [32%N], (codepoints "Asha Rao"), [32%N].
    split; [reflexivity|]. split; [reflexivity|]. split; [reflexivity|].
    split; [reflexivity|]. split; [by exists 65%N|by exists 111%N].
Defined.


Lemma at_least_rests_elem n p s rest :
  rest ∈ at_least_rests n p s ↔
  ∃ pre, s = pre ++ rest ∧ n ≤ List.length pre ∧ forallb p pre = true.
Proof.
  revert s. induction n as [|n IH]; intros s; simpl.
  - rewrite star_rests_elem. split; intros (pre & ? & ?); exists pre; intuition lia.
  - destruct s as [|c t].
    + rewrite elem_of_nil. split; [done|].
      intros ([|d pre] & Hs & Hlen & _); simpl in *; [lia|done].
    + destruct (p c) eqn:Hc.
      * rewrite IH. split.
        -- intros (pre & -> & Hlen & Hpre). exists (c :: pre). simpl.
           rewrite Hc, Hpre. split; [done|]. split; [lia|done].
        -- intros ([|d pre] & Hs & Hlen & Hpre); simpl in *; [lia|].
           injection Hs as <- ->. apply andb_true_iff in Hpre as [_ Hpre].
           exists pre. split; [done|]. split; [lia|done].
      * rewrite elem_of_nil. split; [done|].
        intros ([|d pre] & Hs & Hlen & Hpre); simpl in *; [lia|].
        injection Hs as <- ->. by rewrite Hc in Hpre.
Qed.

Lemma at_most_rests_nil n p s :
  [] ∈ at_most_rests n p s ↔ List.length s ≤ n ∧ forallb p s = true.
Proof.
  revert s. induction n as [|n IH]; intros [|c t]; simpl.
  - rewrite list_elem_of_singleton. intuition.
  - rewrite list_elem_of_singleton. split; [done|]. intros [? _]; lia.
  - rewrite list_elem_of_singleton. intuition lia.
  - rewrite elem_of_app, list_elem_of_singleton. destruct (p c); simpl.
    + rewrite IH. split; [intros [[? ?]|?]; [split; [lia|done]|done]|].
      intros [? ?]. left. split; [lia|done].
    + rewrite elem_of_nil. split; [by intros [?|?]|by intros [_ ?]].
Qed.

Lemma between_rests_nil lo hi p s :
  lo ≤ hi →
  ([] ∈ between_rests lo hi p s ↔
   lo ≤ List.length s ∧ List.length s ≤ hi ∧ forallb p s = true).
Proof.
  revert hi s. induction lo as [|lo IH]; intros hi s Hle; simpl.
  - rewrite at_most_rests_nil. intuition lia.
  - destruct s as [|c t]; simpl.
    + rewrite elem_of_nil. split; [done|]. intros [? _]; lia.
    + destruct (p c); simpl.
      * rewrite IH by lia. intuition lia.
      * rewrite elem_of_nil. split; [done|]. by intros (_ & _ & ?).
Qed.

(** The strings the pattern of [is_valid_marks] matches in full. *)
Lemma marks_re_fullmatch d s :
  pattern_fullmatch (marks_re d) s = true ↔
  ∃ whole frac,
    s = whole ++ frac ∧ whole ≠ [] ∧ forallb d whole = true ∧
    (frac = [] ∨
     ∃ digits, frac = 46%N :: digits ∧
               1 ≤ List.length digits ∧ List.length digits ≤ 2 ∧
               forallb d digits = true).
Proof.
  unfold pattern_fullmatch. rewrite existsb_has.
  assert ((∃ c : list N, c ∈ pattern_rests (List.length s) (marks_re d) s ∧
                         bool_decide (c = []) = true) ↔
          [] ∈ pattern_rests (List.length s) (marks_re d) s) as ->.
  { split; [by intros (c & Hc & ->%bool_decide_eq_true)|]. intros H. by exists []. }
  unfold marks_re. cbn [pattern_rests]. rewrite bool_decide_eq_true_2 by done.
  rewrite list_elem_of_bind. split.
  - intros (s' & Hin & ->%list_elem_of_singleton).
    apply list_elem_of_bind in Hin as (r1 & Hin & Hr1).
    cbn [rests] in Hr1. apply at_least_rests_elem in Hr1 as (whole & -> & Hlen & Hwhole).
    exists whole, r1. split; [done|]. split; [by destruct whole; [simpl in Hlen; lia|]|].
    split; [done|].
    apply list_elem_of_bind in Hin as (r2 & Hin & Hr2).
    case_bool_decide as Hend; [|by apply elem_of_nil in Hin].
    apply list_elem_of_singleton in Hin as <-.
    apply elem_of_app in Hr2 as [Hr2|Hr2%list_elem_of_singleton]; [|by left].
    right. apply list_elem_of_bind in Hr2 as (t & Hnil & Ht).
    destruct r1 as [|c r1]; [by apply elem_of_nil in Ht|].
    cbn [rests] in Ht. unfold full_stop in Ht.
    destruct (c =? 46)%N eqn:Hc; [|by apply elem_of_nil in Ht].
    apply N.eqb_eq in Hc as ->. apply list_elem_of_singleton in Ht as ->.
    apply between_rests_nil in Hnil as (? & ? & ?); [|lia]. by exists r1.
  - intros (whole & frac & -> & Hne & Hwhole & Hfrac).
    exists (whole ++ frac). split; [|by apply list_elem_of_singleton].
    apply list_elem_of_bind. exists frac. split.
    2:{ cbn [rests]. apply at_least_rests_elem. exists whole. split; [done|].
        split; [|done]. destruct whole; [done|]. simpl. lia. }
    apply list_elem_of_bind. exists []. split.
    { rewrite bool_decide_eq_true_2 by (by left). by apply list_elem_of_singleton. }
    apply elem_of_app. destruct Hfrac as [->|(digits & -> & Hlo & Hhi & Hd)].
    { right. by apply list_elem_of_singleton. }
    left. apply list_elem_of_bind. exists digits. split.
    + apply between_rests_nil; [lia|done].
    + cbn [rests]. by apply list_elem_of_singleton.
Qed.

(** X2.  [is_valid_marks] accepts exactly the values that, once [strip] has
    removed the white space at both ends, are one or more decimal digits,
    alone or followed by a full stop and one or two decimal digits.  An empty
    value and a blank one are refused. *)
Theorem is_valid_marks_spec (unicode_space unicode_decimal : N → bool) (value : list N) :
  is_valid_marks unicode_space unicode_decimal value = true ↔
  ∃ whole frac,
    strip unicode_space value = whole ++ frac ∧
    whole ≠ [] ∧ forallb unicode_decimal whole = true ∧
    (frac = [] ∨
     ∃ digits, frac = 46%N :: digits ∧
               1 ≤ List.length digits ∧ List.length digits ≤ 2 ∧
               forallb unicode_decimal digits = true).
Proof.
  unfold is_valid_marks.
  destruct (bool_decide (value = [])) eqn:Hv; cbn [negb andb].
  - apply bool_decide_eq_true in Hv as ->. split; [done|].
    intros (whole & frac & Hs & Hne & _). by destruct whole.
  - destruct (bool_decide (strip unicode_space value = [])) eqn:Hs; cbn [negb].
    + apply bool_decide_eq_true in Hs. rewrite Hs. split; [done|].
      intros (whole & frac & Hs' & Hne & _). by destruct whole.
    + apply marks_re_fullmatch.
Qed.

(** ** The program's start *)




Lemma has_uname_nonempty cols u r : has_uname cols u r → r ≠ [].
Proof.
  unfold has_uname, field. intros Hr ->.
  destruct (index_of "uname" cols); simpl in Hr; [|done]. by rewrite lookup_nil in Hr.
Qed.

Lemma uname_in_keys : "uname" ∈ keys.
Proof. by apply (bool_decide_unpack _). Qed.

(** The administrator's block on a table with the schema's columns. *)
Lemma create_default_admin_live t :
  keys ⊆ columns t → primary_key t = Some "uname" →
  create_default_admin (Some t) =
    if bool_decide (Exists (has_uname (columns t) "admin") (rows t))
    then (Some t, Return ())
    else (Some (Table (columns t) (primary_key t)
                  (rows t ++ [new_row (columns t) keys (VText <$> admin_values)])),
          Return ()).
Proof.
  intros Hsub Hpk. unfold create_default_admin, try_except.
  unfold mbind at 1, sql_bind at 1. unfold select_by_uname.
  rewrite with_columns_present.
  2:{ intros c ->%list_elem_of_singleton. apply Hsub, uname_in_keys. }
  cbn [mret sql_ret].
  destruct (list_find (has_uname (columns t) "admin") (rows t)) as [[i r]|] eqn:Hf.
  - apply list_find_Some in Hf as (Hi & Hr & _).
    rewrite bool_decide_eq_true_2.
    2:{ apply Exists_exists. exists r. split; [by eapply list_elem_of_lookup_2|done]. }
    cbn [fmap option_fmap option_map snd].
    apply has_uname_nonempty in Hr. by destruct r.
  - apply list_find_None in Hf.
    rewrite bool_decide_eq_false_2 by (by apply Forall_Exists_neg).
    cbn [fmap option_fmap option_map row_truthy negb].
    unfold mbind, sql_bind.
    rewrite (insert_into_keys t _ "admin"); try done.
    by rewrite bool_decide_eq_false_2 by (by apply Forall_Exists_neg).
Qed.

(** X4.  The block that makes the default administrator never raises,
    whatever the database.  On a table with the schema's columns, keyed by
    [uname], it leaves the table as it is when a record [admin] exists (its
    password is not set back), and otherwise appends the record of the
    administrator, with which the login query then succeeds under the
    password [Admin@123].  The first start on an empty database leaves just
    that record, and a second start changes nothing. *)
Theorem create_default_admin_spec :
  (∀ db, ∃ db', create_default_admin db = (db', Return ())) ∧
  (∀ t, keys ⊆ columns t → primary_key t = Some "uname" →
     ∃ t', create_default_admin (Some t) = (Some t', Return ()) ∧
           columns t' = columns t ∧
           Exists (has_uname (columns t') "admin") (rows t') ∧
           (Exists (has_uname (columns t) "admin") (rows t) → t' = t) ∧
           (¬ Exists (has_uname (columns t) "admin") (rows t) →
            ∃ r, rows t' = rows t ++ [r] ∧
                 (∀ i k, keys !! i = Some k →
                    field (columns t) r k = VText <$> admin_values !! i) ∧
                 find_by_credentials "admin" admin_pwd (Some t') =
                   (Some t', Return (Some r)))) ∧
  startup None = (Some first_start, Return ()) ∧
  startup (Some first_start) = (Some first_start, Return ()).
Proof.
  split; [|split; [|split; by vm_compute]].
  - intros db. unfold create_default_admin, try_except.
    match goal with
    | |- context [match ?m with _ => _ end] => destruct m as [db' [[]|e]]
    end; by eexists.
  - intros t Hsub Hpk. rewrite create_default_admin_live by done.
    assert (∀ i k, keys !! i = Some k →
      field (columns t) (new_row (columns t) keys (VText <$> admin_values)) k =
      VText <$> admin_values !! i) as Hfields.
    { intros i k Hi. rewrite (field_new_row _ keys _ i k); try done.
      - rewrite list_lookup_fmap. by destruct (admin_values !! i).
      - apply NoDup_keys.
      - apply Hsub. by eapply list_elem_of_lookup_2. }
    case_bool_decide as Hex.
    + exists t. do 3 (split; [done|]). split; [done|]. by intros Hn.
    + eexists. split; [done|]. cbn [columns rows]. split; [done|]. split.
      { apply Exists_app. right. apply Exists_cons. left. apply (Hfields 0 "uname"). done. }
      split; [done|]. intros _. eexists. split; [done|]. split; [exact Hfields|].
      unfold find_by_credentials, select_by_credentials.
      rewrite with_columns_present.
      2:{ simpl. by apply (keys_present ["uname"; "pwd"]); [evaluate|]. }
      simpl. rewrite list_find_app_r.
      2:{ apply list_find_None. apply Forall_Exists_neg in Hex.
          eapply Forall_impl; [exact Hex|]. intros r Hr [Hr' _]. by apply Hr. }
      unfold list_find at 1. rewrite decide_True; [done|].
      split; [apply (Hfields 0 "uname")|apply (Hfields 1 "pwd")]; done.
Qed.

(** ** The invariant of the store *)

















(** ** Administrative actions and the login query *)

Lemma list_find_filter_implied {A} (P Q : A → Prop)
    `{∀ x, Decision (P x)} `{∀ x, Decision (Q x)} (l : list A) :
  (∀ x, P x → Q x) →
  snd <$> list_find P (filter Q l) = snd <$> list_find P l.
Proof.
  intros HPQ. induction l as [|x l IH]; [done|].
  destruct (decide (P x)) as [Hx|Hx].
  - rewrite filter_cons_True by auto. cbn [list_find]. by rewrite !decide_True.
  - cbn [list_find]. rewrite (decide_False (P:=P x)) by done.
    rewrite <- option_fmap_compose.
    destruct (decide (Q x)).
    + rewrite filter_cons_True by done. cbn [list_find]. rewrite decide_False by done.
      rewrite <- option_fmap_compose.
      destruct (list_find P (filter Q l)) as [[]|], (list_find P l) as [[]|]; done.
    + rewrite filter_cons_False by done.
      destruct (list_find P (filter Q l)) as [[]|], (list_find P l) as [[]|]; done.
Qed.

Lemma list_find_fmap_unaffected {A} (P : A → Prop) `{∀ x, Decision (P x)}
    (f : A → A) (l : list A) :
  Forall (λ x, f x = x ∨ (¬ P x ∧ ¬ P (f x))) l →
  snd <$> list_find P (f <$> l) = snd <$> list_find P l.
Proof.
  induction 1 as [|x l Hx Hl IH]; [done|].
  rewrite fmap_cons. cbn [list_find].
  destruct Hx as [->|[Hx Hfx]].
  - destruct (decide (P x)); [done|]. rewrite <- !option_fmap_compose.
    destruct (list_find P (f <$> l)) as [[]|], (list_find P l) as [[]|]; done.
  - rewrite !decide_False by done. rewrite <- !option_fmap_compose.
    destruct (list_find P (f <$> l)) as [[]|], (list_find P l) as [[]|]; done.
Qed.

Lemma find_by_credentials_live t u p :
  ["uname"; "pwd"] ⊆ columns t →
  find_by_credentials u p (Some t) =
    (Some t, Return (snd <$> list_find (has_credentials (columns t) u p) (rows t))).
Proof.
  intros Hsub. unfold find_by_credentials, select_by_credentials.
  by rewrite with_columns_present.
Qed.

(** X6.  Deleting a user locks that user out and no one else.  After the
    deletion of a username other than the empty one and [admin], the login
    query finds nothing under that username with any password, the login form
    answers every attempt under it with an error and leaves the session as it
    was, and the login query under any other username returns what it returned
    before. *)
Theorem delete_user_then_login (t : table) (u : string) :
  u ≠ "" → u ≠ "admin" → ["uname"; "pwd"] ⊆ columns t →
  ∃ t',
    delete_user u (Some t) = (Some t', Return (st_success ("Deleted user: " +:+ u))) ∧
    (∀ p, find_by_credentials u p (Some t') = (Some t', Return None)) ∧
    (∀ entropy w p answer,
       ∃ w' msg, submit_login entropy u p answer w (Some t') = (w', Return (st_error msg)) ∧
                 logged_in (session w') = logged_in (session w) ∧
                 user_data (session w') = user_data (session w)) ∧
    (∀ u' p', u' ≠ u →
       ∃ found, find_by_credentials u' p' (Some t) = (Some t, Return found) ∧
                find_by_credentials u' p' (Some t') = (Some t', Return found)).
Proof.
  intros Hne Hadm Hcols.
  assert ("uname" ∈ columns t) as Hu by (apply Hcols; by left).
  eexists. split; [by apply delete_user_other|].
  set (t' := Table _ _ _).
  assert (∀ p, find_by_credentials u p (Some t') = (Some t', Return None)) as Hnone.
  { intros p. rewrite find_by_credentials_live by done. cbn [columns rows t'].
    replace (list_find _ _) with (@None (nat * list value)); [done|].
    symmetry. apply list_find_None, Forall_forall.
    intros r [Hr _]%list_elem_of_filter [Hr' _]. by apply Hr. }
  split; [exact Hnone|]. split.
  - intros entropy w p answer. unfold submit_login.
    case_bool_decide; cbn [negb]; [|by eexists _, _].
    rewrite Hnone. cbn [snd]. by eexists _, _.
  - intros u' p' Hu'. eexists. split; [by apply find_by_credentials_live|].
    rewrite find_by_credentials_live by done. cbn [columns rows t'].
    rewrite list_find_filter_implied; [done|].
    intros r [Hr _] Hr'. unfold has_uname in Hr'. congruence.
Qed.

Lemma delete_user_then_login_witness :
  ∃ t',
    delete_user "bob" (Some two_users) =
      (Some t', Return (st_success ("Deleted user: " +:+ "bob"))) ∧
    find_by_credentials "bob" "Pw1@aaaa" (Some t') = (Some t', Return None).
Proof.
  destruct (delete_user_then_login two_users "bob") as (t' & Hdel & Hnone & _).
  - discriminate.
  - discriminate.
  - evaluate.
  - exists t'. split; [exact Hdel|apply Hnone].
Defined.

(** X7.  A password reset takes effect at the next login.  After the reset
    of an existing user other than [admin] to a non-empty password, the login
    query under that username succeeds with the new password and returns a
    record of that user with only [pwd] changed, it finds nothing with any
    other password (the old one among them), and it returns for every other
    username what it returned before. *)
Theorem reset_password_then_login (t : table) (u p : string) :
  u ≠ "" → p ≠ "" → u ≠ "admin" →
  wf_table t → ["pwd"; "uname"] ⊆ columns t →
  Exists (has_uname (columns t) u) (rows t) →
  ∃ t' r r0,
    reset_password u p (Some t) =
      (Some t', Return (st_success ("Password reset for " +:+ u))) ∧
    find_by_credentials u p (Some t') = (Some t', Return (Some r)) ∧
    r0 ∈ rows t ∧ has_uname (columns t) u r0 ∧
    (∀ c, field (columns t) r c =
          if decide (c = "pwd") then Some (VText p) else field (columns t) r0 c) ∧
    (∀ old, old ≠ p → find_by_credentials u old (Some t') = (Some t', Return None)) ∧
    (∀ u' p', u' ≠ u →
       ∃ found, find_by_credentials u' p' (Some t) = (Some t, Return found) ∧
                find_by_credentials u' p' (Some t') = (Some t', Return found)).
Proof.
  intros Hne Hp Hadm [Hnd Hwf] Hcols Hex.
  assert (["uname"; "pwd"] ⊆ columns t) as Hcols'.
  { intros c Hc. apply Hcols. apply elem_of_cons in Hc as [->|Hc]; [by right; left|].
    apply list_elem_of_singleton in Hc as ->. by left. }
  assert ("pwd" ∈ columns t) as Hpwd by (apply Hcols; by left).
  destruct (index_of_elem _ _ Hpwd) as [j Hj].
  set (set_pwd := λ r : list value,
         if decide (has_uname (columns t) u r) then <[j := VText p]> r else r).
  assert (reset_password u p (Some t) =
            (Some (Table (columns t) (primary_key t) (set_pwd <$> rows t)),
             Return (st_success ("Password reset for " +:+ u)))) as Hreset.
  { rewrite reset_password_other by done. by rewrite Hj. }
  assert (∀ r c, r ∈ rows t → has_uname (columns t) u r →
            field (columns t) (set_pwd r) c =
            if decide (c = "pwd") then Some (VText p) else field (columns t) r c) as Hset.
  { intros r c Hr Hur. unfold set_pwd. rewrite decide_True by done.
    apply field_set_pwd; try done. by eapply Forall_forall in Hwf. }
  assert (∀ r, r ∈ rows t → has_uname (columns t) u (set_pwd r) ↔ has_uname (columns t) u r)
    as Hsame.
  { intros r Hr. unfold set_pwd. case_decide as Hur; [|done].
    unfold has_uname. rewrite <- Hur at 2.
    eapply Forall_forall in Hwf; [|exact Hr].
    by rewrite (field_set_pwd _ _ j p "uname") by done. }
  set (t' := Table (columns t) (primary_key t) (set_pwd <$> rows t)).
  destruct (find_by_credentials_spec t' u p Hcols') as (found & Hfind & Hfound).
  destruct found as [r|].
  2:{ exfalso. apply Exists_exists in Hex as (r0 & Hr0 & Hu0).
      apply (Hfound (set_pwd r0)).
      - cbn [rows t']. by apply list_elem_of_fmap_2.
      - cbn [columns t']. split; [by apply Hsame|].
        by rewrite (Hset r0 "pwd" Hr0 Hu0). }
  destruct Hfound as (Hr & Hur & Hpr). cbn [rows columns t'] in *.
  apply list_elem_of_fmap in Hr as (r0 & -> & Hr0).
  assert (has_uname (columns t) u r0) as Hu0 by (by apply Hsame).
  exists t', (set_pwd r0), r0. split; [exact Hreset|]. split; [exact Hfind|].
  split; [done|]. split; [done|]. split; [intros c; by apply Hset|]. split.
  - intros old Hold. rewrite find_by_credentials_live by done. cbn [columns rows t'].
    replace (list_find _ _) with (@None (nat * list value)); [done|].
    symmetry. apply list_find_None, Forall_forall.
    intros r [r1 [-> Hr1]]%list_elem_of_fmap [Hu1 Hp1].
    apply (Hsame r1 Hr1) in Hu1. rewrite (Hset r1 "pwd" Hr1 Hu1) in Hp1.
    rewrite decide_True in Hp1 by done. congruence.
  - intros u' p' Hu'. eexists. split; [by apply find_by_credentials_live|].
    rewrite find_by_credentials_live by done. cbn [columns rows t'].
    rewrite list_find_fmap_unaffected; [done|].
    apply Forall_forall. intros r Hr.
    destruct (decide (has_uname (columns t) u r)) as [Hr1|Hr1];
      [right|left; unfold set_pwd; by rewrite decide_False].
    pose proof (proj2 (Hsame r Hr) Hr1) as Hr2.
    split; intros [Hu1 _]; unfold has_uname in *; congruence.
Qed.

Lemma reset_password_then_login_witness :
  ∃ t' r,
    reset_password "bob" "N3w#pass" (Some two_users) =
      (Some t', Return (st_success ("Password reset for " +:+ "bob"))) ∧
    find_by_credentials "bob" "N3w#pass" (Some t') = (Some t', Return (Some r)) ∧
    find_by_credentials "bob" "Pw1@aaaa" (Some t') = (Some t', Return None).
Proof.
  destruct (reset_password_then_login two_users "bob" "N3w#pass")
    as (t' & r & r0 & Hreset & Hnew & _ & _ & _ & Hold & _).
  - discriminate.
  - discriminate.
  - discriminate.
  - split; [apply NoDup_keys|evaluate].
  - evaluate.
  - evaluate.
  - exists t', r. split; [exact Hreset|]. split; [exact Hnew|]. by apply Hold.
Defined.

(** ** The cells of an imported row *)

Lemma foldl_insert_none (ks : list string) (d : gmap string (option string)) k :
  foldl (λ d key, <[key := None]> d) d ks !! k =
  if decide (k ∈ ks) then Some None else d !! k.
Proof.
  revert d. induction ks as [|key ks IH]; intros d; cbn [foldl].
  - rewrite decide_False; [done|]. apply not_elem_of_nil.
  - rewrite IH. destruct (decide (k ∈ ks)) as [Hk|Hk].
    + by rewrite decide_True by (by right).
    + destruct (decide (k = key)) as [->|Hne].
      * rewrite decide_True by (by left). apply lookup_insert_eq.
      * rewrite decide_False; [by rewrite lookup_insert_ne|].
        by intros [?|?]%elem_of_cons.
Qed.

(** What a [DictReader] row holds under a field name: the cell below it,
    [None] when the row ends before. *)
Lemma dict_row_lookup names row i k :
  NoDup names → names !! i = Some k →
  dict_row names row !! k = Some (row !! i).
Proof.
  intros Hnd Hi. unfold dict_row. rewrite foldl_insert_none.
  case_decide as Hk.
  - apply list_elem_of_lookup in Hk as [j Hj]. rewrite lookup_drop in Hj.
    assert (i = List.length row + j) as -> by (by eapply NoDup_lookup).
    f_equal. symmetry. apply lookup_ge_None. lia.
  - rewrite (dict_lookup_zip names _ i k) by done. rewrite list_lookup_fmap.
    destruct (row !! i) as [c|] eqn:Hc; [done|].
    exfalso. apply Hk. apply lookup_ge_None in Hc.
    apply list_elem_of_lookup. exists (i - List.length row). rewrite lookup_drop.
    by replace (List.length row + (i - List.length row)) with i by lia.
Qed.

Lemma row_values_lookup names row i j k :
  NoDup names → keys !! j = Some k → names !! i = Some k →
  row_values (dict_row names row) !! j = Some (from_option VText VNull (row !! i)).
Proof.
  intros Hnd Hj Hi. unfold row_values. rewrite list_lookup_fmap, Hj.
  cbn [fmap option_fmap option_map]. by rewrite (dict_row_lookup names row i k).
Qed.

Lemma commit_after {A} (m : sql A) db :
  (m ≫= λ result, commit ≫= λ _, mret result) db = m db.
Proof. unfold mbind, sql_bind. by destruct (m db) as [db' [a|e]]. Qed.

(** X8.  An imported row is read by the names of the header, not by
    position: whatever the order of the columns in the sheet, and whatever
    further columns it has, each field of the stored record is the cell under
    the column of its name.  A row that ends before that column leaves the
    field NULL (not the empty string). *)
Theorem import_row_by_header (t : table) (names row : list string) :
  NoDup names → keys ⊆ names →
  keys ⊆ columns t → primary_key t = Some "uname" →
  row ≠ [] →
  (∀ i u, names !! i = Some "uname" → row !! i = Some u →
          ¬ Exists (has_uname (columns t) u) (rows t)) →
  ∃ r,
    import_users_from_csv [names; row] (Some t) =
      (Some (Table (columns t) (primary_key t) (rows t ++ [r])), Return (1, [])) ∧
    ∀ i k, k ∈ keys → names !! i = Some k →
      field (columns t) r k = Some (from_option VText VNull (row !! i)).
Proof.
  intros Hnd Hnames Hsub Hpk Hrow Hnew.
  set (rv := row_values (dict_row names row)).
  assert ("uname" ∈ names) as [i0 Hi0]%list_elem_of_lookup
    by (apply Hnames; evaluate).
  assert (head rv = Some (from_option VText VNull (row !! i0))) as Hhd.
  { rewrite <- head_lookup. by apply (row_values_lookup names row i0 0 "uname"). }
  assert (first_uses (unames t) [rv] = [true]) as Hfirst.
  { cbn [first_uses]. rewrite Hhd. destruct (row !! i0) as [u|] eqn:Hu; [|done].
    cbn [from_option]. rewrite bool_decide_eq_true_2; [done|].
    rewrite elem_of_unames. by apply (Hnew i0). }
  exists (new_row (columns t) keys rv). split.
  - unfold import_users_from_csv. cbn [fieldnames head].
    rewrite bool_decide_eq_true_2 by (by rewrite keys_subset_set).
    rewrite commit_after. cbn [dict_rows].
    rewrite filter_cons_True, filter_nil by done.
    rewrite import_rows_spec by done.
    cbn [fmap list_fmap]. fold rv. rewrite Hfirst. done.
  - intros i k Hk Hi. apply list_elem_of_lookup in Hk as [j Hj].
    rewrite (field_new_row _ keys rv j k)
      by first [done | apply NoDup_keys | apply row_values_length
               | apply Hsub; by eapply list_elem_of_lookup_2].
    unfold rv. rewrite (row_values_lookup names row i j k) by done.
    by destruct (row !! i).
Qed.

Lemma import_row_by_header_witness :
  ∃ r,
    import_users_from_csv [reverse keys; reverse alice] (Some one_user) =
      (Some (Table (columns one_user) (primary_key one_user) (rows one_user ++ [r])),
       Return (1, [])) ∧
    field (columns one_user) r "uname" = Some (VText "alice").
Proof.
  destruct (import_row_by_header one_user (reverse keys) (reverse alice))
    as (r & Hrun & Hfields).
  - evaluate.
  - evaluate.
  - done.
  - reflexivity.
  - evaluate.
  - intros i u Hi Hu.
    do 19 (destruct i as [|i]; [by vm_compute in Hi|]).
    destruct i as [|i]; [|by vm_compute in Hi].
    vm_compute in Hu. injection Hu as <-. evaluate.
  - exists r. split; [exact Hrun|]. by apply (Hfields 19 "uname"); [evaluate|].
Defined.

(** ** An export read back into the store it came from *)






(** ** The session and the pages *)

Lemma challenge_at_ok entropy pos :
  let c := challenge_at entropy pos in
  (2 ≤ c.1.1 ≤ 12)%Z ∧ (2 ≤ c.1.2 ≤ 12)%Z ∧ c.2 = (c.1.1 + c.1.2)%Z.
Proof. cbn. split; [|split; [|done]]; apply randint_range; lia. Qed.

Lemma submit_login_keeps_ok entropy uname pwd answer w db :
  session_ok w → logged_in (session w) = false →
  session_ok (submit_login entropy uname pwd answer w db).1.
Proof.
  intros (Hc & Hn & Hd) Hout. rewrite Hout in Hd. unfold submit_login.
  assert (session_ok (regenerate_captcha entropy (count_failure w))) as Hfail.
  { split; [apply challenge_at_ok|]. cbn. rewrite Hout. split; [lia|done]. }
  case_bool_decide; cbn [negb]; [|exact Hfail].
  destruct (find_by_credentials uname pwd db).2 as [[[|x user]|]|e]; try exact Hfail.
  - destruct ((x :: user) !! 2); cbn [fst].
    + split; [apply challenge_at_ok|]. cbn. split; [lia|done].
    + split; [exact Hc|]. cbn. split; [lia|done].
  - cbn [fst]. split; [exact Hc|]. split; [exact Hn|]. by rewrite Hout.
Qed.

Lemma shows_dashboard_logged_in w :
  session_ok w → shows_dashboard w = logged_in (session w).
Proof.
  intros (_ & _ & Hd). unfold shows_dashboard.
  destruct (logged_in (session w)); [by rewrite Hd|done].
Qed.

Lemma run_page_keeps_ok entropy e db w :
  session_ok w → session_ok (run_page entropy e db w).
Proof.
  intros Hok. unfold run_page. rewrite shows_dashboard_logged_in by done.
  destruct (logged_in (session w)) eqn:Hin.
  - destruct e; [done|]. destruct Hok as (Hc & Hn & _). by split.
  - destruct e; [|done]. by apply submit_login_keeps_ok.
Qed.

(** X10.  The invariant of a session.  From the session setup on, whatever
    the visitor submits and whatever the database holds at each step, the
    answer kept is the sum of the two numbers of the challenge, each between 2
    and 12, the failure count is not negative, and the session holds a record
    that is not empty exactly when it is logged in.  So the dashboard is drawn
    exactly for logged-in sessions and is never called without a record. *)
Theorem session_invariant (entropy : nat → Z) (pos : nat)
    (events : list (event * database)) :
  let w := visit entropy events (session_setup entropy pos None) in
  session_ok w ∧
  shows_dashboard w = logged_in (session w) ∧
  (shows_dashboard w = true → ∃ x user, user_data (session w) = Some (x :: user)).
Proof.
  assert (∀ w0, session_ok w0 → session_ok (visit entropy events w0)) as Hall.
  { induction events as [|[e db] events IH]; intros w0 Hok; [done|].
    cbn [visit foldl]. apply IH. by apply run_page_keeps_ok. }
  intros w.
  assert (session_ok w) as Hok.
  { apply Hall. split; [apply challenge_at_ok|]. cbn. split; [lia|done]. }
  split; [exact Hok|]. split; [by apply shows_dashboard_logged_in|].
  unfold shows_dashboard. intros [_ Hrow]%andb_true_iff.
  destruct (user_data (session w)) as [[|x user]|]; try done. by exists x, user.
Qed.

(** ** The dashboard *)

Lemma user_dict_field col_names user k :
  NoDup col_names → user_dict col_names user !! k = field col_names user k.
Proof.
  intros Hnd. unfold user_dict, field.
  destruct (decide (k ∈ col_names)) as [Hk|Hk].
  - destruct (index_of_elem k col_names Hk) as [i Hi]. rewrite Hi. cbn.
    apply dict_lookup_zip; [done|]. by apply index_of_Some.
  - rewrite index_of_not_elem by done. cbn. unfold dict.
    apply not_elem_of_list_to_map_1. rewrite fmap_reverse, elem_of_reverse.
    intros Hin. apply Hk. apply list_elem_of_fmap in Hin as ([k' v] & -> & Hin).
    by apply elem_of_zip_l in Hin.
Qed.

Lemma field_first cols r c : head cols = Some c → field cols r c = head r.
Proof.
  destruct cols as [|c' cols]; [done|]. intros [= ->]. unfold field, index_of.
  cbn [list_find]. rewrite decide_True by done. cbn. apply head_lookup.
Qed.

(** X11.  Only the account named [admin] gets the administrator's pages.
    On a table whose first column is [uname] (as the program creates it), a
    login that succeeds puts a stored record with the submitted username and
    password in the session, the dashboard is drawn, and its sidebar offers
    [Admin Dashboard] exactly when the submitted username is [admin].  The
    dictionary the pages read holds under each column name the field of that
    record. *)
Theorem admin_dashboard_for_admin_only (entropy : nat → Z) (t : table) (w w' : client)
    (uname pwd : string) (answer : option Z) (msg : string) :
  keys ⊆ columns t → wf_table t → head (columns t) = Some "uname" →
  submit_login entropy uname pwd answer w (Some t) = (w', Return (st_success msg)) →
  ∃ user,
    user_data (session w') = Some user ∧
    shows_dashboard w' = true ∧
    user ∈ rows t ∧
    (is_admin_user user = true ↔ uname = "admin") ∧
    ("Admin Dashboard" ∈ sidebar_options user ↔ uname = "admin") ∧
    (∀ k, user_dict (columns t) user !! k = field (columns t) user k) ∧
    user_dict (columns t) user !! "uname" = Some (VText uname) ∧
    user_dict (columns t) user !! "pwd" = Some (VText pwd).
Proof.
  intros Hsub Hwf Hfirst Hlogin.
  destruct (submit_login_cases entropy t w uname pwd answer Hsub Hwf)
    as [[_ Hrun]|[(_ & _ & Hrun)|(_ & r & name & Hr & [Hu Hp] & Hname & Hrun)]];
    rewrite Hrun in Hlogin; try done.
  injection Hlogin as <- _. exists r. cbn.
  assert (is_admin_user r = true ↔ uname = "admin") as Hadmin.
  { unfold is_admin_user. rewrite bool_decide_eq_true.
    rewrite <- (field_first (columns t) r "uname") by done. rewrite Hu.
    split; [by intros [= ->]|by intros ->]. }
  split; [done|]. split; [by destruct r|]. split; [done|]. split; [exact Hadmin|].
  assert (∀ k, user_dict (columns t) r !! k = field (columns t) r k) as Hdict.
  { intros k. apply user_dict_field. by destruct Hwf. }
  split; [|split; [exact Hdict|by rewrite !Hdict]].
  rewrite <- Hadmin. unfold sidebar_options.
  destruct (is_admin_user r); split; try done.
  - intros _. evaluate.
  - intros Hin. exfalso. revert Hin. evaluate.
Qed.

Lemma admin_dashboard_for_admin_only_witness :
  ∃ user, user ∈ rows one_user ∧ is_admin_user user = false.
Proof.
  destruct (admin_dashboard_for_admin_only dice one_user anonymous
              (submit_login dice "bob" "Pw1@aaaa" (Some 13%Z) anonymous (Some one_user)).1
              "bob" "Pw1@aaaa" (Some 13%Z) "✅ Welcome Bob!")
    as (user & _ & _ & Hin & Hadmin & _).
  - done.
  - split; [apply NoDup_keys|evaluate].
  - reflexivity.
  - by vm_compute.
  - exists user. split; [exact Hin|]. apply not_true_iff_false.
    intros Ha. by apply Hadmin in Ha.
Defined.

(** ** The registration form *)

Lemma register_returns values db : ∃ db' n, register values db = (db', Return n).
Proof.
  unfold register, try_except, mbind, sql_bind.
  destruct (insert_into keys values db) as [db' [[]|e]]; [by eexists _, _|].
  destruct e; by eexists _, _.
Qed.

Lemma validation_error_none d g sp f :
  validation_error d g sp f = None →
  missing_fields f = false ∧
  Forall (λ s, is_valid_name sp s = true)
    [form_name f; form_father f; form_mother f; form_city f] ∧
  is_valid_number g (form_phone f) (Some 10%Z) = true ∧
  is_strong_password d (form_pwd f) = true ∧
  is_valid_marks sp d (form_marks_10th f) = true ∧
  is_valid_marks sp d (form_marks_12th f) = true.
Proof.
  unfold validation_error.
  destruct (missing_fields f); [done|].
  destruct (forallb _ _) eqn:Hnames; [|done]. cbn [negb].
  destruct (is_valid_number _ _ _); [|done]. cbn [negb].
  destruct (is_strong_password _ _); [|done]. cbn [negb].
  destruct (is_valid_marks _ _ (form_marks_10th f)); [|done].
  destruct (is_valid_marks _ _ (form_marks_12th f)); [|done]. intros _.
  split; [done|]. split; [|done].
  apply Forall_forall. intros s Hs. rewrite forallb_forall in Hnames.
  by apply Hnames, list_elem_of_In.
Qed.

Lemma missing_fields_uploads f :
  missing_fields f = false →
  ∃ photo sign, form_photo f = Some photo ∧ form_sign f = Some sign.
Proof.
  unfold missing_fields. rewrite negb_false_iff. cbn [forallb id].
  rewrite !andb_true_iff.
  intros (_ & _ & _ & _ & _ & _ & _ & _ & _ & _ & _ & _ & _ & _ & _ & _ & _ & _
          & Hp & Hs & _).
  apply bool_decide_eq_true in Hp as [photo Hp], Hs as [sign Hs]. by exists photo, sign.
Qed.

(** The login query right after an insert of a new username. *)
Lemma find_by_credentials_inserted t vals u p :
  keys ⊆ columns t → List.length vals = List.length keys →
  vals !! 0 = Some (VText u) → vals !! 1 = Some (VText p) →
  ¬ Exists (has_uname (columns t) u) (rows t) →
  let r := new_row (columns t) keys vals in
  let t' := Table (columns t) (primary_key t) (rows t ++ [r]) in
  find_by_credentials u p (Some t') = (Some t', Return (Some r)).
Proof.
  intros Hsub Hlen Hu Hp Hnew r t'.
  assert (∀ i k, keys !! i = Some k →
    field (columns t) r k = text_affinity <$> vals !! i) as Hfields.
  { intros i k Hi. apply field_new_row; try done; [apply NoDup_keys|].
    apply Hsub. by eapply list_elem_of_lookup_2. }
  unfold find_by_credentials, select_by_credentials.
  rewrite with_columns_present.
  2:{ by apply (keys_present ["uname"; "pwd"]); [evaluate|]. }
  cbn [columns rows t' mret sql_ret]. rewrite list_find_app_r.
  2:{ apply list_find_None. apply Forall_Exists_neg in Hnew.
      eapply Forall_impl; [exact Hnew|]. intros r' Hr' [Hr'' _]. by apply Hr'. }
  unfold list_find at 1. rewrite decide_True; [done|]. split.
  - unfold has_credentials. by rewrite (Hfields 0 "uname"), Hu.
  - by rewrite (Hfields 1 "pwd"), Hp.
Qed.

Lemma register_outcome t vals u :
  keys ⊆ columns t → primary_key t = Some "uname" →
  List.length vals = List.length keys → vals !! 0 = Some (VText u) →
  register vals (Some t) =
    if bool_decide (Exists (has_uname (columns t) u) (rows t))
    then (Some t, Return (st_error "Username already exists. Choose a different username."))
    else (Some (Table (columns t) (primary_key t)
                  (rows t ++ [new_row (columns t) keys vals])),
          Return (st_success "✅ Registered successfully. Please log in.")).
Proof.
  intros Hsub Hpk Hlen Hu. unfold register, try_except, mbind, sql_bind.
  rewrite (insert_into_keys t vals u) by (by rewrite ?Hu).
  by case_bool_decide.
Qed.

(** X12.  Nothing is written unless every check passes.  A form that fails
    a check (a missing field, a name or city that is not a name, a phone
    number that is not ten digits, a weak password, marks that are not
    numeric) gets an error notice, and neither a file nor the database
    changes.  When the form reports success, all checks held, the phone number
    has exactly ten digits, the username was new, both uploads were written
    under the paths stored in the record, the record was appended with the
    fields of the form (the year as its decimal text), and the login query
    with the username and password of the form returns it. *)
Theorem registration_gate (unicode_decimal unicode_digit unicode_space : N → bool)
    (encode : list N → string) (path_join : string → string → string)
    (writable : string → bool) (f : registration) (fs : files) :
  let submit := submit_registration unicode_decimal unicode_digit unicode_space
                  encode path_join writable in
  let photo_path := path_join "uploads" (photo_name encode f) in
  let sign_path := path_join "uploads" (sign_name encode f) in
  (∀ db,
     missing_fields f = true ∨
     ¬ Forall (λ s, is_valid_name unicode_space s = true)
         [form_name f; form_father f; form_mother f; form_city f] ∨
     is_valid_number unicode_digit (form_phone f) (Some 10%Z) = false ∨
     is_strong_password unicode_decimal (form_pwd f) = false ∨
     is_valid_marks unicode_space unicode_decimal (form_marks_10th f) = false ∨
     is_valid_marks unicode_space unicode_decimal (form_marks_12th f) = false →
     ∃ msg, submit f fs db = (fs, db, Says (st_error msg))) ∧
  (∀ t fs' db' msg,
     keys ⊆ columns t → primary_key t = Some "uname" →
     submit f fs (Some t) = (fs', db', Says (st_success msg)) →
     (missing_fields f = false ∧
      Forall (λ s, is_valid_name unicode_space s = true)
        [form_name f; form_father f; form_mother f; form_city f] ∧
      is_valid_number unicode_digit (form_phone f) (Some 10%Z) = true ∧
      is_strong_password unicode_decimal (form_pwd f) = true ∧
      is_valid_marks unicode_space unicode_decimal (form_marks_10th f) = true ∧
      is_valid_marks unicode_space unicode_decimal (form_marks_12th f) = true) ∧
     (List.length (form_phone f) = 10 ∧
      forallb unicode_digit (form_phone f) = true) ∧
     ¬ Exists (has_uname (columns t) (encode (form_uname f))) (rows t) ∧
     ∃ photo sign r,
       form_photo f = Some photo ∧ form_sign f = Some sign ∧
       fs' = <[sign_path := sign]> (<[photo_path := photo]> fs) ∧
       db' = Some (Table (columns t) (primary_key t) (rows t ++ [r])) ∧
       find_by_credentials (encode (form_uname f)) (encode (form_pwd f)) db' =
         (db', Return (Some r)) ∧
       (∀ i k, keys !! i = Some k →
          field (columns t) r k =
          text_affinity <$> form_values encode f (Some photo_path) (Some sign_path) !! i)).
Proof.
  intros submit photo_path sign_path. split.
  - intros db Hbad.
    destruct (validation_error unicode_decimal unicode_digit unicode_space f)
      as [msg|] eqn:Hv.
    + exists msg. unfold submit, submit_registration. by rewrite Hv.
    + exfalso. apply validation_error_none in Hv as (H1 & H2 & H3 & H4 & H5 & H6).
      destruct Hbad as [?|[?|[?|[?|[?|?]]]]]; congruence.
  - intros t fs' db' msg Hsub Hpk Hrun. unfold submit, submit_registration in Hrun.
    destruct (validation_error unicode_decimal unicode_digit unicode_space f)
      as [?|] eqn:Hv; [done|].
    pose proof (validation_error_none _ _ _ _ Hv) as Hchecks.
    destruct (missing_fields_uploads f (proj1 Hchecks)) as (photo & sign & Hphoto & Hsign).
    rewrite Hphoto, Hsign in Hrun. unfold save_file in Hrun.
    fold photo_path sign_path in Hrun.
    destruct (writable photo_path); [|done]. destruct (writable sign_path); [|done].
    set (vals := form_values encode f (Some photo_path) (Some sign_path)) in *.
    rewrite (register_outcome t vals (encode (form_uname f))) in Hrun by done.
    case_bool_decide as Hex; [done|]. injection Hrun as <- <- _.
    split; [exact Hchecks|]. split.
    { destruct Hchecks as (_ & _ & Hphone & _). unfold is_valid_number in Hphone.
      cbn [truthy Z.eqb negb] in Hphone.
      apply andb_true_iff in Hphone as [[_ Hdig]%andb_true_iff Hlen].
      apply bool_decide_eq_true in Hlen. unfold isdigit in Hdig.
      apply andb_true_iff in Hdig as [_ Hdig]. split; [|done].
      injection Hlen as Hlen. lia. }
    split; [exact Hex|].
    exists photo, sign, (new_row (columns t) keys vals).
    do 4 (split; [done|]). split.
    + by apply find_by_credentials_inserted.
    + intros i k Hi. apply field_new_row; try done; [apply NoDup_keys|].
      apply Hsub. by eapply list_elem_of_lookup_2.
Qed.

(** X13.  A registration under a username that is taken is refused, yet it
    has already replaced that account's files.  When the form passes the
    checks and both files can be written, the notice says that the username
    exists and the database is unchanged, but the uploads directory now holds
    the new photo and signature under the paths made from the username, which
    are the paths of the account that owns it. *)
Theorem registration_duplicate_replaces_files
    (unicode_decimal unicode_digit unicode_space : N → bool)
    (encode : list N → string) (path_join : string → string → string)
    (writable : string → bool) (t : table) (f : registration) (fs : files)
    (photo sign : string) :
  let photo_path := path_join "uploads" (photo_name encode f) in
  let sign_path := path_join "uploads" (sign_name encode f) in
  keys ⊆ columns t → primary_key t = Some "uname" →
  validation_error unicode_decimal unicode_digit unicode_space f = None →
  form_photo f = Some photo → form_sign f = Some sign →
  writable photo_path = true → writable sign_path = true →
  Exists (has_uname (columns t) (encode (form_uname f))) (rows t) →
  ∃ fs',
    submit_registration unicode_decimal unicode_digit unicode_space
      encode path_join writable f fs (Some t) =
    (fs', Some t,
     Says (st_error "Username already exists. Choose a different username.")) ∧
    fs' = <[sign_path := sign]> (<[photo_path := photo]> fs) ∧
    fs' !! sign_path = Some sign ∧
    (photo_path ≠ sign_path → fs' !! photo_path = Some photo).
Proof.
  intros photo_path sign_path Hsub Hpk Hv Hphoto Hsign Hwp Hws Hex.
  eexists. split; [|split; [done|]].
  - unfold submit_registration. rewrite Hv, Hphoto, Hsign. unfold save_file.
    fold photo_path sign_path. rewrite Hwp, Hws.
    rewrite (register_outcome t _ (encode (form_uname f))) by done.
    by rewrite bool_decide_eq_true_2.
  - split; [apply lookup_insert_eq|]. intros Hne.
    etrans; [apply lookup_insert_ne; congruence|apply lookup_insert_eq].
Qed.

Lemma registration_duplicate_replaces_files_witness :
  ∃ fs',
    submit_registration ascii_digit ascii_digit ascii_space utf8 posix_join (λ _, true)
      carol_form {[ "uploads/carol_photo.png" := "her photo" ]}
      (Some (Table keys (Some "uname") [VText <$> ("carol" :: tail bob)])) =
    (fs', Some (Table keys (Some "uname") [VText <$> ("carol" :: tail bob)]),
     Says (st_error "Username already exists. Choose a different username.")) ∧
    fs' !! "uploads/carol_photo.png" = Some "photo bytes".
Proof.
  destruct (registration_duplicate_replaces_files ascii_digit ascii_digit ascii_space
              utf8 posix_join (λ _, true)
              (Table keys (Some "uname") [VText <$> ("carol" :: tail bob)])
              carol_form {[ "uploads/carol_photo.png" := "her photo" ]}
              "photo bytes" "sign bytes")
    as (fs' & Hrun & _ & _ & Hphoto).
  - done.
  - reflexivity.
  - by vm_compute.
  - reflexivity.
  - reflexivity.
  - reflexivity.
  - reflexivity.
  - evaluate.
  - exists fs'. split; [exact Hrun|]. apply Hphoto. by vm_compute.
Defined.

(** ** The report *)

Section ReportFacts.

Variable sp : N → bool.
Hypothesis space_is_space : sp 32%N = true.

Lemma split_from_words s acc :
  forallb (λ c, negb (sp c)) acc = true → Forall (word sp) (split_from sp s acc).
Proof.
  revert acc. induction s as [|c t IH]; intros acc Hacc; cbn [split_from].
  - case_bool_decide; [constructor|]. by apply Forall_singleton.
  - destruct (sp c) eqn:Hc.
    + apply Forall_app. split; [|by apply IH].
      case_bool_decide; [constructor|]. by apply Forall_singleton.
    + apply IH. rewrite forallb_app, Hacc. cbn. by rewrite Hc.
Qed.

Lemma split_from_word w s acc :
  forallb (λ c, negb (sp c)) w = true →
  split_from sp (w ++ s) acc = split_from sp s (acc ++ w).
Proof.
  revert acc. induction w as [|c w IH]; intros acc Hw; cbn [app split_from].
  - by rewrite app_nil_r.
  - cbn in Hw. apply andb_true_iff in Hw as [Hc Hw].
    apply negb_true_iff in Hc. rewrite Hc, IH by done. by rewrite <- app_assoc.
Qed.

Lemma split_unwords g : Forall (word sp) g → split sp (unwords g) = g.
Proof.
  induction 1 as [|w g [Hne Hw] Hg IH]; [done|]. unfold split in *.
  cbn [unwords]. destruct g as [|w' g].
  - rewrite <- (app_nil_r w) at 1. rewrite split_from_word by done. cbn.
    by rewrite bool_decide_eq_false_2.
  - rewrite split_from_word by done. cbn [app split_from].
    rewrite space_is_space, bool_decide_eq_false_2 by done. cbn [app].
    by rewrite IH.
Qed.

Lemma unwords_snoc g w : g ≠ [] → unwords (g ++ [w]) = unwords g ++ [32%N] ++ w.
Proof.
  induction g as [|w0 g IH]; [done|]. intros _. destruct g as [|w1 g]; [done|].
  change (unwords ((w0 :: w1 :: g) ++ [w])) with
    (w0 ++ [32%N] ++ unwords ((w1 :: g) ++ [w])).
  rewrite IH by done. cbn [unwords]. by rewrite <- !app_assoc.
Qed.

Lemma word_ends w :
  word sp w →
  (∃ c, head w = Some c ∧ sp c = false) ∧ (∃ c, last w = Some c ∧ sp c = false).
Proof.
  intros [Hne Hw]. rewrite forallb_forall in Hw. split.
  - destruct w as [|c w]; [done|]. exists c. split; [done|].
    apply negb_true_iff, Hw. by left.
  - destruct (last w) as [c|] eqn:Hc; [|by apply last_None in Hc].
    exists c. split; [done|]. apply negb_true_iff, Hw, list_elem_of_In.
    by apply last_Some_elem_of.
Qed.

Lemma unwords_ends g :
  Forall (word sp) g → g ≠ [] →
  (∃ c, head (unwords g) = Some c ∧ sp c = false) ∧
  (∃ c, last (unwords g) = Some c ∧ sp c = false).
Proof.
  induction 1 as [|w g Hw Hg IH]; [done|]. intros _.
  destruct (word_ends w Hw) as [(a & Ha & Hsa) (z & Hz & Hsz)].
  destruct g as [|w' g]; [by split; eexists|].
  destruct IH as [_ (z' & Hz' & Hsz')]; [done|].
  change (unwords (w :: w' :: g)) with (w ++ [32%N] ++ unwords (w' :: g)). split.
  - exists a. split; [|done]. destruct w; [done|]. by injection Ha as ->.
  - exists z'. split; [|done]. rewrite !last_app, Hz'. done.
Qed.

(** One more word on the current line. *)
Lemma strip_joined g w :
  Forall (word sp) g → word sp w →
  strip sp (unwords g ++ [32%N] ++ w) = unwords (g ++ [w]).
Proof.
  intros Hg Hw. destruct (word_ends w Hw) as [Hhd Hlast].
  destruct g as [|w0 g].
  - cbn [unwords app].
    rewrite <- (app_nil_r w) at 1. apply (strip_unique sp [32%N] w []); try done.
    cbn. by rewrite space_is_space.
  - rewrite unwords_snoc by done.
    destruct (unwords_ends (w0 :: g) Hg) as [(a & Ha & Hsa) _]; [done|].
    destruct Hlast as (z & Hz & Hsz).
    pose proof (strip_unique sp [] (unwords (w0 :: g) ++ [32%N] ++ w) []
                  eq_refl eq_refl) as Hs.
    rewrite app_nil_r in Hs. apply Hs.
    + exists a. split; [|done]. destruct (unwords (w0 :: g)); [done|]. done.
    + exists z. split; [|done]. rewrite !last_app, Hz. done.
Qed.

Lemma strip_length s : List.length (strip sp s) ≤ List.length s.
Proof.
  destruct (strip_spec sp s) as (pre & post & Hs & _).
  rewrite Hs at 2. rewrite !length_app. lia.
Qed.

(** The loop keeps the words, in order, in groups: one group a line. *)
Lemma wrap_loop_groups ws groups gcur :
  Forall (Forall (word sp)) groups → Forall (word sp) gcur → Forall (word sp) ws →
  ∃ groups' gcur',
    foldl (wrap_step sp) (unwords <$> groups, unwords gcur) ws =
      (unwords <$> groups', unwords gcur') ∧
    Forall (Forall (word sp)) groups' ∧ Forall (word sp) gcur' ∧
    mjoin groups' ++ gcur' = mjoin groups ++ gcur ++ ws.
Proof.
  revert groups gcur. induction ws as [|w ws IH]; intros groups gcur Hgs Hg Hws.
  - exists groups, gcur. by rewrite app_nil_r.
  - apply Forall_cons in Hws as [Hw Hws]. cbn [foldl]. unfold wrap_step at 2.
    cbn [fst snd]. case_bool_decide.
    + rewrite strip_joined by done.
      destruct (IH groups (gcur ++ [w])) as (groups' & gcur' & -> & ? & ? & Hj);
        try done.
      { apply Forall_app. split; [done|]. by apply Forall_singleton. }
      exists groups', gcur'. do 3 (split; [done|]). rewrite Hj.
      by rewrite <- !app_assoc.
    + change w with (unwords [w]) at 1.
      replace ((unwords <$> groups) ++ [unwords gcur]) with (unwords <$> (groups ++ [gcur]))
        by (by rewrite fmap_app).
      destruct (IH (groups ++ [gcur]) [w]) as (groups' & gcur' & -> & ? & ? & Hj);
        try done.
      { apply Forall_app. split; [done|]. by apply Forall_singleton. }
      { by apply Forall_singleton. }
      exists groups', gcur'. do 3 (split; [done|]). rewrite Hj.
      rewrite join_app. cbn. by rewrite app_nil_r, <- !app_assoc.
Qed.

Lemma join_split_unwords groups :
  Forall (Forall (word sp)) groups →
  mjoin (split sp <$> (unwords <$> groups)) = mjoin groups.
Proof.
  induction 1 as [|g groups Hg _ IH]; [done|].
  rewrite !fmap_cons. change (mjoin (?x :: ?l)) with (x ++ mjoin l).
  by rewrite split_unwords, IH.
Qed.

(** Every line is within the limit unless it is one word on its own. *)
Lemma wrap_loop_lengths (words : list (list N)) ws st :
  Forall (λ l, List.length l ≤ 55 ∨ l ∈ words) (st.1 ++ [st.2]) →
  Forall (λ w, w ∈ words) ws →
  let st' := foldl (wrap_step sp) st ws in
  Forall (λ l, List.length l ≤ 55 ∨ l ∈ words) (st'.1 ++ [st'.2]).
Proof.
  revert st. induction ws as [|w ws IH]; intros st Hst Hws; [done|].
  apply Forall_cons in Hws as [Hw Hws]. cbn [foldl]. apply IH; [|done].
  apply Forall_app in Hst as [Hlines Hcur]. unfold wrap_step.
  case_bool_decide as Hfit; cbn [fst snd].
  - apply Forall_app. split; [done|]. apply Forall_singleton. left.
    etrans; [apply strip_length|]. rewrite !length_app. cbn.
    unfold max_chars_per_line in Hfit. lia.
  - apply Forall_app. split; [by apply Forall_app|]. apply Forall_singleton. by right.
Qed.

Lemma wrap_loop_head ws st l :
  head st.1 = Some l → head (foldl (wrap_step sp) st ws).1 = Some l.
Proof.
  revert st. induction ws as [|w ws IH]; intros st Hst; [done|].
  cbn [foldl]. apply IH. unfold wrap_step. case_bool_decide; cbn [fst]; [done|].
  destruct st.1; [done|]. done.
Qed.

End ReportFacts.

(** X14.  The lines a value is wrapped into hold its words, all of them and
    in order: splitting the lines again gives the words of the value.  A line
    has at most 55 characters unless it is a single word longer than that,
    which is never broken.  A first word of 55 characters or more leaves an
    empty line before it; a value of white space alone gives no line at all,
    the empty value one empty line. *)
Theorem wrap_spec (unicode_space : N → bool) (value : list N) :
  unicode_space 32%N = true →
  mjoin (split unicode_space <$> wrap unicode_space value) = split unicode_space value ∧
  Forall (λ l, List.length l ≤ 55 ∨ l ∈ split unicode_space value)
    (wrap unicode_space value) ∧
  (∀ w ws, split unicode_space value = w :: ws → 55 ≤ List.length w →
     head (wrap unicode_space value) = Some []) ∧
  (split unicode_space value = [] →
     wrap unicode_space value = if bool_decide (value = []) then [[]] else []).
Proof.
  intros Hsp.
  assert (Forall (word unicode_space) (split unicode_space value)) as Hwords
    by (by apply split_from_words).
  unfold wrap. case_bool_decide as Hv.
  { subst value. split; [done|]. split; [|split; [done|done]].
    apply Forall_singleton. left. cbn. lia. }
  destruct (wrap_loop_groups unicode_space Hsp (split unicode_space value) [] [])
    as (groups & gcur & Hloop & Hgroups & Hgcur & Hjoin); [done..|].
  cbn [fmap list_fmap unwords mjoin list_join app] in Hloop, Hjoin.
  pose proof (wrap_loop_lengths unicode_space (split unicode_space value)
                (split unicode_space value) ([], [])) as Hlen.
  cbn [fst snd app] in Hlen.
  specialize (Hlen ltac:(apply Forall_singleton; left; cbn; lia)
                   ltac:(by apply Forall_forall)).
  cbn zeta in Hlen.
  split; [|split; [|split]].
  - rewrite Hloop. cbn [fst snd].
    assert (unwords gcur = [] → gcur = []) as Hnil.
    { intros Hu. destruct gcur as [|w g]; [done|].
      destruct (unwords_ends unicode_space (w :: g) Hgcur) as [(a & Ha & _) _]; [done|].
      by rewrite Hu in Ha. }
    case_bool_decide as Hcur.
    + apply Hnil in Hcur as ->. rewrite app_nil_r in Hjoin.
      by rewrite join_split_unwords.
    + rewrite fmap_app, join_app, join_split_unwords by done.
      cbn [fmap list_fmap mjoin list_join]. rewrite split_unwords by done.
      by rewrite app_nil_r.
  - case_bool_decide; [|done]. by apply Forall_app in Hlen as [? _].
  - intros w ws Hsplit Hlong.
    assert (head (foldl (wrap_step unicode_space) ([], []) (split unicode_space value)).1
            = Some []) as Hhd.
    { rewrite Hsplit. cbn [foldl]. apply wrap_loop_head. unfold wrap_step.
      rewrite bool_decide_eq_false_2; [done|].
      unfold max_chars_per_line. cbn. lia. }
    case_bool_decide; [done|].
    destruct (foldl _ _ _).1; [done|]. done.
  - intros ->. done.
Qed.

Lemma wrap_spec_witness :
  mjoin (split ascii_space <$> wrap ascii_space (codepoints "12 Road,  Jaipur")) =
  split ascii_space (codepoints "12 Road,  Jaipur").
Proof.
  apply (wrap_spec ascii_space (codepoints "12 Road,  Jaipur")). reflexivity.
Defined.

(** X15.  Every line of a value is drawn, none is dropped: line [li] of row
    [idx] at height [520 - 26 idx - 12 li - 8].  A line is drawn in full when
    [26 idx + 12 li <= 398], and otherwise cut to its first 40 characters
    followed by three full stops; so the first line of each of the sixteen
    rows is always drawn in full, and in the last row every further line is
    cut.  From the third line on, a line lies below the lower rule of its own
    row. *)
Theorem draw_lines_spec (idx : nat) (lines : list (list N)) :
  List.length (draw_lines idx lines) = List.length lines ∧
  ∀ li vline, lines !! li = Some vline →
    ∃ y text,
      draw_lines idx lines !! li = Some (y, text) ∧
      y = (520 - 26 * Z.of_nat idx - 12 * Z.of_nat li - 8)%Z ∧
      text = (if bool_decide (26 * idx + 12 * li ≤ 398) then vline
              else take 40 vline ++ codepoints "...") ∧
      (idx < 16 → li = 0 → text = vline) ∧
      (idx = 15 → 0 < li → text = take 40 vline ++ codepoints "...") ∧
      (2 ≤ li → (y < 520 - 26 * Z.of_nat (S idx))%Z).
Proof.
  unfold draw_lines. split; [apply length_imap|].
  intros li vline Hli. rewrite list_lookup_imap, Hli. cbn [fmap option_fmap option_map].
  eexists _, _. split; [done|].
  unfold table_y_start, row_height, num_rows.
  split; [lia|].
  assert (∀ b : bool, (if b then take 40 vline ++ codepoints "..." else vline) =
            (if negb b then vline else take 40 vline ++ codepoints "...")) as Hflip
    by (by intros []).
  rewrite Hflip.
  replace (negb _) with (bool_decide (26 * idx + 12 * li ≤ 398)).
  2:{ case_bool_decide as Hfit; symmetry.
      - apply negb_true_iff, Z.ltb_ge. lia.
      - apply negb_false_iff, Z.ltb_lt. lia. }
  split; [done|]. split; [|split; [|lia]].
  - intros Hidx ->. rewrite bool_decide_eq_true_2; [done|lia].
  - intros -> Hpos. rewrite bool_decide_eq_false_2; [done|lia].
Qed.

(** ** The report: an image in its box *)

Lemma drawImage_eq x y w h x' y' w' h' :
  (Leibniz.eqb x x' && Leibniz.eqb y y' && Leibniz.eqb w w' && Leibniz.eqb h h')%bool
    = true →
  drawImage x y w h = drawImage x' y' w' h'.
Proof.
  rewrite !andb_true_iff, !Leibniz.eqb_spec. by intros [[[-> ->] ->] ->].
Qed.

(** The images that fit, one by one: drawn at their own size, centred, and
    at least 4 units inside the box on every side. *)
Lemma images_that_fit box_x :
  box_x = left_x ∨ box_x = right_x →
  forallb (λ w, forallb (λ h,
    match draw_image_in_box (Some (Z.of_nat w, Z.of_nat h)) true box_x 700 220 140 "" with
    | drawImage x y dw dh =>
        (Leibniz.eqb x (float_of_int (2 * box_x + 220 - Z.of_nat w) / float_of_int 2)
         && Leibniz.eqb y (float_of_int (1260 - Z.of_nat h) / float_of_int 2)
         && Leibniz.eqb dw (float_of_int (Z.of_nat w))
         && Leibniz.eqb dh (float_of_int (Z.of_nat h)))
        && ((float_of_int (box_x + 4) <=? x) && (x + dw <=? float_of_int (box_x + 216))
            && (564 <=? y) && (y + dh <=? 696))
    | drawString _ _ _ => false
    end%float) (seq 1 132)) (seq 1 212) = true.
Proof. intros [-> | ->]; by vm_compute. Qed.

(** X16.  An image in a box of the report (the photo's or the signature's).
    Without a readable image, with an image of width or height 0, and when
    the canvas refuses the image, the alternate text is drawn, 6 units right
    of the box's left edge at half its height.  An image that fits the
    interior (at most 212 wide and 132 high) is drawn at its own size, never
    enlarged, centred in the box and at least 4 units inside it on every
    side.  A larger image is scaled down, and the rounding of the scaling can
    leave it wider than the interior: an image 274 wide is drawn wider than
    212. *)
Theorem draw_image_in_box_spec (box_x : Z) (alt_text : string) :
  box_x = left_x ∨ box_x = right_x →
  (∀ drawable,
     draw_image_in_box None drawable box_x 700 220 140 alt_text =
       drawString (box_x + 6) 630 alt_text) ∧
  (∀ im_w im_h drawable,
     (0 ≤ im_w < 2 ^ 53)%Z → (0 ≤ im_h < 2 ^ 53)%Z →
     im_w = 0%Z ∨ im_h = 0%Z ∨ drawable = false →
     draw_image_in_box (Some (im_w, im_h)) drawable box_x 700 220 140 alt_text =
       drawString (box_x + 6) 630 alt_text) ∧
  (∀ im_w im_h,
     (1 ≤ im_w ≤ 212)%Z → (1 ≤ im_h ≤ 132)%Z →
     ∃ x_pos y_pos,
       draw_image_in_box (Some (im_w, im_h)) true box_x 700 220 140 alt_text =
         drawImage x_pos y_pos (float_of_int im_w) (float_of_int im_h) ∧
       x_pos = (float_of_int (2 * box_x + 220 - im_w) / float_of_int 2)%float ∧
       y_pos = (float_of_int (1260 - im_h) / float_of_int 2)%float ∧
       (float_of_int (box_x + 4) <=? x_pos)%float = true ∧
       (x_pos + float_of_int im_w <=? float_of_int (box_x + 216))%float = true ∧
       (564 <=? y_pos)%float = true ∧
       (y_pos + float_of_int im_h <=? 696)%float = true) ∧
  (∃ x_pos y_pos width height,
     draw_image_in_box (Some (274, 100)%Z) true box_x 700 220 140 alt_text =
       drawImage x_pos y_pos width height ∧
     (float_of_int (220 - 8) <? width)%float = true).
Proof.
  intros Hbox.
  assert ((float_of_int 700 - float_of_int 140 / float_of_int 2)%float = 630%float)
    as Hhalf by (by vm_compute).
  split; [|split; [|split]].
  - intros drawable. unfold draw_image_in_box. by rewrite Hhalf.
  - intros im_w im_h drawable _ _ Hcase. unfold draw_image_in_box. rewrite Hhalf.
    destruct (im_w =? 0)%Z eqn:Hw; [done|]. destruct (im_h =? 0)%Z eqn:Hh; [done|].
    destruct Hcase as [-> | [-> | ->]]; done.
  - intros im_w im_h Hw Hh.
    pose proof (images_that_fit box_x Hbox) as Hall.
    rewrite forallb_forall in Hall.
    specialize (Hall (Z.to_nat im_w)). rewrite forallb_forall in Hall.
    specialize (Hall ltac:(apply in_seq; lia) (Z.to_nat im_h) ltac:(apply in_seq; lia)).
    rewrite !Z2Nat.id in Hall by lia.
    unfold draw_image_in_box in *.
    destruct (im_w =? 0)%Z, (im_h =? 0)%Z; cbn [orb] in *; try done.
    apply andb_true_iff in Hall as [Heq Hin].
    rewrite !andb_true_iff in Hin. destruct Hin as [[[Hx1 Hx2] Hy1] Hy2].
    eexists _, _. split; [|split; [reflexivity|split; [reflexivity|]]].
    + by apply drawImage_eq.
    + apply drawImage_eq in Heq. injection Heq as Hx Hy Hdw Hdh.
      rewrite Hx in Hx1, Hx2. rewrite Hy in Hy1, Hy2.
      rewrite Hdw in Hx2. rewrite Hdh in Hy2. done.
  - destruct Hbox as [-> | ->]; eexists _, _, _, _; (split; [by vm_compute|by vm_compute]).
Qed.

Lemma draw_image_in_box_spec_witness :
  draw_image_in_box None true left_x 700 220 140 "Photo not found" =
    drawString (left_x + 6) 630 "Photo not found".
Proof.
  apply (draw_image_in_box_spec left_x "Photo not found"). by left.
Defined.
